(** * The Firestore access layer of the restaurant review application

    A shallow embedding of [src/lib/firebase/firestore.js]: the query
    composer [applyQueryFilters], the rating transaction [updateWithRating]
    with its entry point [addReviewToRestaurant], and the read and
    subscription helpers.

    JavaScript values are a dynamic sum type; numbers are IEEE 754 binary64
    floats ([PrimFloat]); objects are finite maps from property names to
    values.  Strings are sequences of code units, one [ascii] per unit.
    Effects (the documents of the store, the calls made to the Firestore
    SDK, the console) are threaded through a state-and-exception monad in
    which a [Throw] keeps the state reached so far, as a JavaScript
    exception does. *)

From Stdlib Require Import Floats ZArith.
From stdpp Require Import gmap strings list fin_maps pretty.

Set Warnings "-register-all".

(** ** Values *)

Inductive value : Type :=
| VUndefined
| VNull
| VBool (b : bool)
| VNum (n : float)
| VStr (s : string)
| VObj (fields : gmap string value)   (* a plain object, a Firestore map *)
| VArr (items : list value)
| VFun (name : string) (arity : nat)  (* anything callable *)
| VTimestamp (ms : Z)                 (* firebase/firestore Timestamp *)
| VDate (ms : Z)                      (* Date *)
| VFirestore.                         (* the store handle, [db] *)

Inductive error : Type :=
| Error (message : string)            (* [new Error(message)] *)
| TypeError (message : string)
| ReferenceError (message : string)
| FirestoreError (code : string).     (* rejected by the SDK or the backend *)

Inductive outcome (A : Type) : Type :=
| Return (a : A)
| Throw (e : error).
Arguments Return {A} a.
Arguments Throw {A} e.

#[global] Instance outcome_ret : MRet outcome := fun A a => Return a.
#[global] Instance outcome_bind : MBind outcome := fun A B f m =>
  match m with
  | Return a => f a
  | Throw e => Throw e
  end.

Inductive hint : Type := HintDefault | HintNumber | HintString.

(** The conversions of ECMAScript that this file does not spell out: the
    grammar of numeric strings, the shortest round-trip printing of a
    number, and the [valueOf]/[toString] protocol of objects.  Every
    definition and theorem below holds for any choice of them. *)
Class Builtins : Type := {
  StringToNumber : string -> float;
  NumberToString : float -> string;
  ObjectToPrimitive : hint -> value -> value;
}.

Definition nat_to_number (n : nat) : float :=
  PrimFloat.of_uint63 (Uint63.of_Z (Z.of_nat n)).

(** [ToBoolean]: what [if (v)], [!v], [v ? a : b] and [v || w] test. *)
Definition ToBoolean (v : value) : bool :=
  match v with
  | VUndefined | VNull => false
  | VBool b => b
  | VNum n => negb (PrimFloat.is_nan n || PrimFloat.is_zero n)
  | VStr s => negb (String.eqb s "")
  | _ => true
  end.

(** [v === "literal"] *)
Definition strict_equals_string (v : value) (lit : string) : bool :=
  match v with
  | VStr s => String.eqb s lit
  | _ => false
  end.

(** [typeof v === "function"] *)
Definition is_function (v : value) : bool :=
  match v with
  | VFun _ _ => true
  | _ => false
  end.

(** [a || b] *)
Definition js_or (a b : value) : value := if ToBoolean a then a else b.

Fixpoint string_units (s : string) : list value :=
  match s with
  | EmptyString => []
  | String c rest => VStr (String c EmptyString) :: string_units rest
  end.

Definition indexed (items : list value) : gmap string value :=
  list_to_map (imap (fun i v => (pretty i, v)) items).

(** The own enumerable properties of a value: what [{...v}] copies. *)
Definition own_props (v : value) : gmap string value :=
  match v with
  | VObj fields => fields
  | VArr items => indexed items
  | VStr s => indexed (string_units s)
  | _ => ∅
  end.

(** Property read [v.k] for the data properties this module reads; a read
    on [undefined] or [null] throws. *)
Definition GetV (v : value) (k : string) : outcome value :=
  match v with
  | VUndefined =>
      Throw (TypeError ("Cannot read properties of undefined (reading '" +:+ k +:+ "')"))
  | VNull =>
      Throw (TypeError ("Cannot read properties of null (reading '" +:+ k +:+ "')"))
  | VStr s =>
      if String.eqb k "length" then Return (VNum (nat_to_number (String.length s)))
      else Return (default VUndefined (own_props v !! k))
  | VArr items =>
      if String.eqb k "length" then Return (VNum (nat_to_number (length items)))
      else Return (default VUndefined (own_props v !! k))
  | VFun _ arity =>
      if String.eqb k "length" then Return (VNum (nat_to_number arity))
      else Return VUndefined
  | _ => Return (default VUndefined (own_props v !! k))
  end.

(** Optional chaining [v?.k] *)
Definition GetV_opt (v : value) (k : string) : value :=
  match GetV v k with
  | Return x => x
  | Throw _ => VUndefined
  end.

(** [{...v, k: x}] *)
Definition spread_with (v : value) (k : string) (x : value) : value :=
  VObj (<[k := x]> (own_props v)).

Section Conversions.
Context `{Builtins}.

Definition ToPrimitive (h : hint) (v : value) : value :=
  match v with
  | VObj _ | VArr _ | VFun _ _ | VTimestamp _ | VDate _ | VFirestore =>
      ObjectToPrimitive h v
  | _ => v
  end.

Definition ToNumber_primitive (v : value) : float :=
  match v with
  | VUndefined => PrimFloat.nan
  | VNull => 0%float
  | VBool b => if b then 1%float else 0%float
  | VNum n => n
  | VStr s => StringToNumber s
  | _ => PrimFloat.nan
  end.

(** [Number(v)], and the operand conversion of [/] *)
Definition ToNumber (v : value) : float :=
  ToNumber_primitive (ToPrimitive HintNumber v).

Definition ToString_primitive (v : value) : string :=
  match v with
  | VUndefined => "undefined"
  | VNull => "null"
  | VBool b => if b then "true" else "false"
  | VNum n => NumberToString n
  | VStr s => s
  | _ => "[object Object]"
  end.

(** Interpolation in a template literal *)
Definition ToString (v : value) : string :=
  ToString_primitive (ToPrimitive HintString v).

(** [a + b]: concatenation as soon as one operand is a string once made
    primitive, addition of numbers otherwise. *)
Definition js_add (a b : value) : value :=
  let pa := ToPrimitive HintDefault a in
  let pb := ToPrimitive HintDefault b in
  match pa, pb with
  | VStr _, _ | _, VStr _ => VStr (ToString_primitive pa +:+ ToString_primitive pb)
  | _, _ => VNum (PrimFloat.add (ToNumber_primitive pa) (ToNumber_primitive pb))
  end.

(** [a / b] *)
Definition js_div (a b : value) : value :=
  VNum (PrimFloat.div (ToNumber a) (ToNumber b)).
End Conversions.

(** ** Queries

    A query is the collection it reads and the constraints composed onto
    it so far, in the order of composition. *)

Inductive direction : Type := Asc | Desc.

Inductive constraint : Type :=
| Where (field op : string) (v : value)
| OrderBy (field : string) (dir : direction).

Record Query : Type := MkQuery {
  q_path : string;
  q_constraints : list constraint;
}.

Definition where_ (field op : string) (v : value) : constraint := Where field op v.

Definition orderBy (field dir : string) : constraint :=
  OrderBy field (if String.eqb dir "desc" then Desc else Asc).

(** [query(q, c)]: a new query, the argument is left as it was. The SDK
    refuses, with invalid-argument, a [where] that compares a field with
    [undefined]; what else it checks of a compared value (a function, a
    custom object, an array inside an array) is not modelled. *)
Definition query (q : Query) (c : constraint) : outcome Query :=
  match c with
  | Where _ _ VUndefined => Throw (FirestoreError "invalid-argument")
  | _ => Return (MkQuery (q_path q) (q_constraints q ++ [c]))
  end.

(** [applyQueryFilters(q, { category, city, price, sort })] *)
Definition applyQueryFilters (q : Query) (filters : value) : outcome Query :=
  category ← GetV filters "category";
  city ← GetV filters "city";
  price ← GetV filters "price";
  sort ← GetV filters "sort";
  q ← (if ToBoolean category
       then query q (where_ "category" "==" category) else mret q);
  q ← (if ToBoolean city
       then query q (where_ "city" "==" city) else mret q);
  q ← (if ToBoolean price
       then len ← GetV price "length"; query q (where_ "price" "==" len)
       else mret q);
  q ← (if strict_equals_string sort "Rating" || negb (ToBoolean sort)
       then query q (orderBy "avgRating" "desc")
       else if strict_equals_string sort "Review"
            then query q (orderBy "numRatings" "desc")
            else mret q);
  mret q.

(** [ts.toDate()]: only a Timestamp carries the method. *)
Definition toDate (ts : value) : outcome value :=
  match ts with
  | VUndefined =>
      Throw (TypeError "Cannot read properties of undefined (reading 'toDate')")
  | VNull =>
      Throw (TypeError "Cannot read properties of null (reading 'toDate')")
  | VTimestamp ms => Return (VDate ms)
  | _ => Throw (TypeError "toDate is not a function")
  end.

(** [Timestamp.fromDate(d)] *)
Definition Timestamp_fromDate (ms : Z) : value := VTimestamp ms.

(** ** The store, the SDK and the console *)

Inductive write : Type :=
| WUpdate (path : string) (fields : value)
| WSet (path : string) (data : value).

Inductive call : Type :=
| Ccollection (db : value) (segments : list value)
| Cdoc (db : value) (segments : list value)
| Cdoc_in (collection_path : string) (id : option value)
| CgetDoc (path : string)
| CgetDocs (q : Query)
| ConSnapshot_query (q : Query)
| ConSnapshot_doc (path : string)
| CrunTransaction (db : value)
| Ctransaction_get (path : string)
| Ctransaction_update (path : string) (fields : value)
| Ctransaction_set (path : string) (data : value).

Inductive log_line : Type :=
| LogError (message : string) (e : error)       (* console.error(message, e) *)
| Log (message : string) (args : list value).   (* console.log(message, ...args) *)

(** What a registered snapshot listener does with what it is sent. *)
Inductive listener : Type :=
| QueryListener (q : Query) (cb : value)
| DocListener (path : string) (cb : value).

(** The part of the world the module has no hand in: which SDK calls are
    refused and with which code, which documents a query selects (the
    backend's evaluation of a query is not modelled), whether the commit of
    a transaction is refused, the time, which passes while a transaction
    waits to be run again, and how long the SDK waits then, given the
    attempts it has left. *)
Record backend : Type := Backend {
  rejects : call -> option string;
  matching : Query -> list (string * gmap string value);
  commit_fault : option string;
  clock : Z;
  retry_delay : nat -> positive;
}.

Record world : Type := World {
  env : backend;
  docs : gmap string (gmap string value);  (* document path -> fields *)
  calls : list call;                       (* SDK calls, oldest first *)
  console : list log_line;
  tx_writes : list write;                  (* buffer of the open transaction *)
  listeners : list listener;
  invoked : list (value * value);          (* callbacks run, with their argument *)
  conflicts : nat;                         (* commits that will still hit a conflict *)
  next_id : nat;                           (* source of auto-generated ids *)
}.

Definition set_docs d (w : world) : world :=
  World (env w) d (calls w) (console w) (tx_writes w) (listeners w)
        (invoked w) (conflicts w) (next_id w).
Definition add_call c (w : world) : world :=
  World (env w) (docs w) (calls w ++ [c]) (console w) (tx_writes w) (listeners w)
        (invoked w) (conflicts w) (next_id w).
Definition add_log l (w : world) : world :=
  World (env w) (docs w) (calls w) (console w ++ [l]) (tx_writes w) (listeners w)
        (invoked w) (conflicts w) (next_id w).
Definition set_tx_writes ws (w : world) : world :=
  World (env w) (docs w) (calls w) (console w) ws (listeners w)
        (invoked w) (conflicts w) (next_id w).
Definition add_listener l (w : world) : world :=
  World (env w) (docs w) (calls w) (console w) (tx_writes w) (listeners w ++ [l])
        (invoked w) (conflicts w) (next_id w).
Definition add_invoked i (w : world) : world :=
  World (env w) (docs w) (calls w) (console w) (tx_writes w) (listeners w)
        (invoked w ++ [i]) (conflicts w) (next_id w).
Definition set_conflicts n (w : world) : world :=
  World (env w) (docs w) (calls w) (console w) (tx_writes w) (listeners w)
        (invoked w) n (next_id w).
Definition set_next_id n (w : world) : world :=
  World (env w) (docs w) (calls w) (console w) (tx_writes w) (listeners w)
        (invoked w) (conflicts w) n.

(** Time passes: the same backend, its clock later by [delay]. *)
Definition advance_clock (delay : positive) (w : world) : world :=
  World (Backend (rejects (env w)) (matching (env w)) (commit_fault (env w))
                 (clock (env w) + Z.pos delay) (retry_delay (env w)))
        (docs w) (calls w) (console w) (tx_writes w) (listeners w)
        (invoked w) (conflicts w) (next_id w).

(** State and exceptions; the state survives a [Throw]. *)
Definition M (A : Type) : Type := world -> outcome A * world.

#[global] Instance M_ret : MRet M := fun A a w => (Return a, w).
#[global] Instance M_bind : MBind M := fun A B f m w =>
  match m w with
  | (Return a, w') => f a w'
  | (Throw e, w') => (Throw e, w')
  end.

Definition throw {A} (e : error) : M A := fun w => (Throw e, w).

Definition gets {A} (f : world -> A) : M A := fun w => (Return (f w), w).

Definition modify (f : world -> world) : M unit := fun w => (Return tt, f w).

Definition lift {A} (o : outcome A) : M A := fun w => (o, w).

(** [try { body } catch (error) { handler }] *)
Definition try_catch {A} (body : M A) (handler : error -> M A) : M A := fun w =>
  match body w with
  | (Return a, w') => (Return a, w')
  | (Throw e, w') => handler e w'
  end.

Definition console_error (message : string) (e : error) : M unit :=
  modify (add_log (LogError message e)).

Definition console_log (message : string) (args : list value) : M unit :=
  modify (add_log (Log message args)).

(** An SDK call: it is recorded, and refused when the backend says so. *)
Definition sdk (c : call) : M unit := fun w =>
  match rejects (env w) c with
  | Some code => (Throw (FirestoreError code), add_call c w)
  | None => (Return tt, add_call c w)
  end.

(** [new Date()]: the clock stands at the time of the attempt that reads
    it; a transaction that is run again finds it later. *)
Definition new_Date : M Z := gets (fun w => clock (env w)).

(** [fn(arg)] for a callback received from the caller *)
Definition call_function (fn arg : value) : M unit := fun w =>
  if is_function fn then (Return tt, add_invoked (fn, arg) w)
  else (Throw (TypeError "cb is not a function"), w).

Definition snapshot_data (snapshot : option (gmap string value)) : value :=
  match snapshot with
  | Some fields => VObj fields
  | None => VUndefined
  end.

Definition apply_write (d : gmap string (gmap string value)) (wr : write)
  : option (gmap string (gmap string value)) :=
  match wr with
  | WUpdate path fields =>
      old ← d !! path; Some (<[path := own_props fields ∪ old]> d)
  | WSet path data => Some (<[path := own_props data]> d)
  end.

Fixpoint apply_writes (ws : list write) (d : gmap string (gmap string value))
  : option (gmap string (gmap string value)) :=
  match ws with
  | [] => Some d
  | wr :: rest => d' ← apply_write d wr; apply_writes rest d'
  end.

Definition max_attempts : nat := 5.

(** The transaction primitive: the update function runs against the
    committed documents with an empty write buffer; if it throws, the
    buffer is dropped; on a conflicting commit the whole function is run
    again, after a delay; a commit applies every buffered write or none. *)
Fixpoint transaction_attempts (n : nat) (updateFunction : M unit) : M unit := fun w =>
  match n with
  | 0 => (Throw (FirestoreError "aborted"), w)
  | S n' =>
      match updateFunction (set_tx_writes [] w) with
      | (Throw e, w1) => (Throw e, set_tx_writes [] w1)
      | (Return _, w1) =>
          let ws := tx_writes w1 in
          let w2 := set_tx_writes [] w1 in
          match conflicts w2 with
          | S k =>
              transaction_attempts n' updateFunction
                (advance_clock (retry_delay (env w2) n') (set_conflicts k w2))
          | 0 =>
              match commit_fault (env w2) with
              | Some code => (Throw (FirestoreError code), w2)
              | None =>
                  match apply_writes ws (docs w2) with
                  | Some d => (Return tt, set_docs d w2)
                  | None => (Throw (FirestoreError "not-found"), w2)
                  end
              end
          end
      end
  end.

Definition runTransaction (db : value) (updateFunction : M unit) : M unit :=
  sdk (CrunTransaction db);; transaction_attempts max_attempts updateFunction.

Definition transaction_get (path : string) : M (option (gmap string value)) :=
  sdk (Ctransaction_get path);; gets (fun w => docs w !! path).

Definition transaction_update (path : string) (fields : value) : M unit :=
  sdk (Ctransaction_update path fields);;
  modify (fun w => set_tx_writes (tx_writes w ++ [WUpdate path fields]) w).

Definition transaction_set (path : string) (data : value) : M unit :=
  sdk (Ctransaction_set path data);;
  modify (fun w => set_tx_writes (tx_writes w ++ [WSet path data]) w).

Definition getDoc (path : string) : M (option (gmap string value)) :=
  sdk (CgetDoc path);; gets (fun w => docs w !! path).

Definition getDocs (q : Query) : M (list (string * gmap string value)) :=
  sdk (CgetDocs q);; gets (fun w => matching (env w) q).

Definition unsubscribe : value := VFun "unsubscribe" 0.

Definition onSnapshot_query (q : Query) (cb : value) : M value :=
  sdk (ConSnapshot_query q);;
  modify (add_listener (QueryListener q cb));;
  mret unsubscribe.

Definition onSnapshot_doc (path : string) (cb : value) : M value :=
  sdk (ConSnapshot_doc path);;
  modify (add_listener (DocListener path cb));;
  mret unsubscribe.

(** ** Names and scopes

    A scope maps a declared name to its binding; a parameter is declared,
    uninitialised, before the initialisers of the parameter list run. *)

Inductive binding : Type :=
| Uninitialized
| Initialized (v : value).

Fixpoint ResolveBinding (chain : list (gmap string binding)) (name : string)
  : outcome value :=
  match chain with
  | [] => Throw (ReferenceError (name +:+ " is not defined"))
  | innermost :: outer =>
      match innermost !! name with
      | Some (Initialized v) => Return v
      | Some Uninitialized =>
          Throw (ReferenceError ("Cannot access '" +:+ name +:+ "' before initialization"))
      | None => ResolveBinding outer name
      end
  end.

(** The i-th argument of a call; [undefined] when the call passes fewer. *)
Definition argument (args : list value) (i : nat) : value :=
  default VUndefined (args !! i).

(** ** The module *)

(** [{ id: doc.id, ...doc.data(), timestamp: doc.data().timestamp.toDate() }] *)
Definition document_record (d : string * gmap string value) : outcome value :=
  let data := VObj d.2 in
  ts ← GetV data "timestamp";
  date ← toDate ts;
  mret (VObj (<["timestamp" := date]> (own_props data ∪ {["id" := VStr d.1]}))).

(** [{ ...docSnap.data(), timestamp: docSnap.data().timestamp.toDate() }] *)
Definition snapshot_record (snapshot : option (gmap string value)) : outcome value :=
  let data := snapshot_data snapshot in
  ts ← GetV data "timestamp";
  date ← toDate ts;
  mret (spread_with data "timestamp" date).

Section Firestore.
Context `{Builtins}.

Definition path_of (segments : list value) : string :=
  String.concat "/" (ToString <$> segments).

Definition collection (db : value) (segments : list value) : M string :=
  sdk (Ccollection db segments);; mret (path_of segments).

Definition doc (db : value) (segments : list value) : M string :=
  sdk (Cdoc db segments);; mret (path_of segments).

(** [doc(collectionRef, id)], and [doc(collectionRef)] with a generated id *)
Definition doc_in (collection_path : string) (id : option value) : M string :=
  sdk (Cdoc_in collection_path id);;
  match id with
  | Some v => mret (collection_path +:+ "/" +:+ ToString v)
  | None =>
      n ← gets next_id;
      modify (set_next_id (S n));;
      mret (collection_path +:+ "/auto" +:+ pretty n)
  end.

Definition updateWithRating (docRef newRatingDocument : string) (review : value)
  : M unit :=
  restaurant ← transaction_get docRef;
  let data := snapshot_data restaurant in
  newNumRatings ← lift (if ToBoolean (GetV_opt data "numRatings")
                        then numRatings ← GetV data "numRatings";
                             mret (js_add numRatings (VNum 1))
                        else mret (VNum 1));
  rating ← lift (GetV review "rating");
  let newSumRating :=
    js_add (js_or (GetV_opt data "sumRating") (VNum 0)) (VNum (ToNumber rating)) in
  let newAverage := js_div newSumRating newNumRatings in
  transaction_update docRef
    (VObj {[ "numRatings" := newNumRatings;
             "sumRating" := newSumRating;
             "avgRating" := newAverage ]});;
  now ← new_Date;
  transaction_set newRatingDocument
    (spread_with review "timestamp" (Timestamp_fromDate now)).

(** The body of the [try] block of [addReviewToRestaurant] *)
Definition addReview_transaction (db restaurantId review : value) : M unit :=
  restaurants ← collection db [VStr "restaurants"];
  docRef ← doc_in restaurants (Some restaurantId);
  ratings ← collection db [VStr ("restaurants/" +:+ ToString restaurantId +:+ "/ratings")];
  newRatingDocument ← doc_in ratings None;
  runTransaction db (updateWithRating docRef newRatingDocument review).

Definition addReviewToRestaurant (db restaurantId review : value) : M unit :=
  if negb (ToBoolean restaurantId)
  then throw (Error "No restaurant ID has been provided.")
  else if negb (ToBoolean review)
  then throw (Error "A valid review has not been provided.")
  else try_catch (addReview_transaction db restaurantId review)
         (fun error =>
            console_error "There was an error adding the rating to the restaurant" error;;
            throw error).

(** [getRestaurants(db = db, filters = {})]: both parameters are in
    scope, uninitialised, while the first initialiser is evaluated. *)
Definition getRestaurants (globals : gmap string binding) (args : list value)
  : M value :=
  let parameters : gmap string binding :=
    {[ "db" := Uninitialized; "filters" := Uninitialized ]} in
  db ← lift (match argument args 0 with
             | VUndefined => ResolveBinding [parameters; globals] "db"
             | v => Return v
             end);
  let filters := match argument args 1 with
                 | VUndefined => VObj ∅
                 | v => v
                 end in
  restaurants ← collection db [VStr "restaurants"];
  q ← lift (applyQueryFilters (MkQuery restaurants []) filters);
  results ← getDocs q;
  records ← lift (mapM document_record results);
  mret (VArr records).

(** What the listener of a query subscription does with a snapshot *)
Definition on_query_snapshot (cb : value) (snapshot : list (string * gmap string value))
  : M unit :=
  results ← lift (mapM document_record snapshot);
  call_function cb (VArr results).

(** What the listener of a document subscription does with a snapshot *)
Definition on_doc_snapshot (cb : value) (snapshot : option (gmap string value))
  : M unit :=
  record ← lift (snapshot_record snapshot);
  call_function cb record.

(** The backend sends a registered listener the current state. *)
Definition deliver (l : listener) : M unit :=
  match l with
  | QueryListener q cb =>
      snapshot ← gets (fun w => matching (env w) q);
      on_query_snapshot cb snapshot
  | DocListener path cb =>
      snapshot ← gets (fun w => docs w !! path);
      on_doc_snapshot cb snapshot
  end.

Definition getRestaurantsSnapshot (globals : gmap string binding) (cb : value)
    (filters_argument : value) : M value :=
  let filters := match filters_argument with
                 | VUndefined => VObj ∅
                 | v => v
                 end in
  if negb (is_function cb)
  then console_log "Error: The callback parameter is not a function" [];;
       mret VUndefined
  else
    db ← lift (ResolveBinding [globals] "db");
    restaurants ← collection db [VStr "restaurants"];
    q ← lift (applyQueryFilters (MkQuery restaurants []) filters);
    onSnapshot_query q cb.

Definition getRestaurantById (db restaurantId : value) : M value :=
  if negb (ToBoolean restaurantId)
  then console_log "Error: Invalid ID received: " [restaurantId];;
       mret VUndefined
  else
    docRef ← doc db [VStr "restaurants"; restaurantId];
    docSnap ← getDoc docRef;
    lift (snapshot_record docSnap).

Definition getRestaurantSnapshotById (globals : gmap string binding)
    (restaurantId cb : value) : M value :=
  if negb (ToBoolean restaurantId)
  then console_log "Error: Invalid ID received: " [restaurantId];;
       mret VUndefined
  else if negb (is_function cb)
  then console_log "Error: The callback parameter is not a function" [];;
       mret VUndefined
  else
    db ← lift (ResolveBinding [globals] "db");
    docRef ← doc db [VStr "restaurants"; restaurantId];
    onSnapshot_doc docRef cb.

Definition getReviewsByRestaurantId (db restaurantId : value) : M value :=
  if negb (ToBoolean restaurantId)
  then console_log "Error: Invalid restaurantId received: " [restaurantId];;
       mret VUndefined
  else
    ratings ← collection db [VStr "restaurants"; restaurantId; VStr "ratings"];
    q ← lift (query (MkQuery ratings []) (orderBy "timestamp" "desc"));
    results ← getDocs q;
    records ← lift (mapM document_record results);
    mret (VArr records).

Definition getReviewsSnapshotByRestaurantId (globals : gmap string binding)
    (restaurantId cb : value) : M value :=
  if negb (ToBoolean restaurantId)
  then console_log "Error: Invalid restaurantId received: " [restaurantId];;
       mret VUndefined
  else
    db ← lift (ResolveBinding [globals] "db");
    ratings ← collection db [VStr "restaurants"; restaurantId; VStr "ratings"];
    q ← lift (query (MkQuery ratings []) (orderBy "timestamp" "desc"));
    onSnapshot_query q cb.
End Firestore.

(** ** Vocabulary of the properties *)

(** The option [k] of a filter configuration; [undefined] when absent. *)
Definition option_of (filters : gmap string value) (k : string) : value :=
  default VUndefined (filters !! k).

Fixpoint order_predicates (cs : list constraint) : list constraint :=
  match cs with
  | [] => []
  | OrderBy f d :: rest => OrderBy f d :: order_predicates rest
  | Where _ _ _ :: rest => order_predicates rest
  end.

Fixpoint equality_predicates (cs : list constraint) : list constraint :=
  match cs with
  | [] => []
  | Where f op v :: rest =>
      if String.eqb op "==" then Where f op v :: equality_predicates rest
      else equality_predicates rest
  | OrderBy _ _ :: rest => equality_predicates rest
  end.

(** The equality predicates on one field *)
Fixpoint predicates_on (field : string) (cs : list constraint) : list constraint :=
  match cs with
  | [] => []
  | Where f op v :: rest =>
      if String.eqb f field then Where f op v :: predicates_on field rest
      else predicates_on field rest
  | OrderBy _ _ :: rest => predicates_on field rest
  end.

(** The equality predicate an option contributes: one when the option is
    present (truthy), none otherwise. *)
Definition equality_for (field : string) (option compared : value) : list constraint :=
  if ToBoolean option then [Where field "==" compared] else [].

(** The price option can be compared: it is falsy, and skipped, or it has
    a [length] (a symbol string has one; the number of a tier has none, and
    the SDK refuses to compare the price with [undefined]). *)
Definition price_comparable (filters : gmap string value) : bool :=
  negb (ToBoolean (option_of filters "price")) ||
  match GetV_opt (option_of filters "price") "length" with
  | VUndefined => false
  | _ => true
  end.

(** The ordering the composer adds for a [sort] option, in the order the
    source tests it *)
Definition ordering_added (sort : value) : list constraint :=
  if strict_equals_string sort "Rating" || negb (ToBoolean sort)
  then [OrderBy "avgRating" Desc]
  else if strict_equals_string sort "Review"
       then [OrderBy "numRatings" Desc]
       else [].

(** An aggregate field as the data model types it: a number that is not
    NaN, or nothing (missing, [undefined], [null]). *)
Definition is_aggregate_field (v : value) : bool :=
  match v with
  | VUndefined | VNull => true
  | VNum n => negb (PrimFloat.is_nan n)
  | _ => false
  end.

(** The current value of an aggregate field as the specification reads
    it: the stored number, a missing or zero field counting as 0. *)
Definition current_or_zero (v : value) : float :=
  match v with
  | VNum n => if PrimFloat.is_zero n then 0%float else n
  | _ => 0%float
  end.

(** No error of the module's own making *)
Definition not_module_error {A} (r : outcome A) : Prop :=
  match r with
  | Throw (Error _) => False
  | _ => True
  end.

(** The backend refuses no SDK call. *)
Definition accepting (w : world) : Prop := forall c, rejects (env w) c = None.

(** A computation that leaves the documents, the console and the backend
    alone, only adds to the recorded calls, and throws no error of the
    module's own *)
Definition harmless {A} (m : M A) : Prop :=
  forall w,
    docs (m w).2 = docs w /\ console (m w).2 = console w /\ env (m w).2 = env w /\
    (exists more, calls (m w).2 = calls w ++ more) /\
    not_module_error (m w).1.

(** The backend [e'] is the backend [e] at the same time or later. *)
Definition later (e e' : backend) : Prop :=
  rejects e' = rejects e /\ matching e' = matching e /\
  commit_fault e' = commit_fault e /\ retry_delay e' = retry_delay e /\
  (clock e <= clock e')%Z.

(** The same, except that the documents may change when it returns and
    that time may pass *)
Definition contained {A} (m : M A) : Prop :=
  forall w,
    console (m w).2 = console w /\ later (env w) (env (m w).2) /\
    (exists more, calls (m w).2 = calls w ++ more) /\
    not_module_error (m w).1 /\
    (forall e, (m w).1 = Throw e -> docs (m w).2 = docs w).

(** A computation that only ever adds to the recorded calls *)
Definition appending {A} (m : M A) : Prop :=
  forall w, exists more, calls (m w).2 = calls w ++ more.

(** ** Sample data *)

(** Stand-ins for the conversions, for data in which no string is read
    as a number, no number printed and no object made primitive *)
Definition sample_builtins : Builtins :=
  {| StringToNumber := fun _ => PrimFloat.nan;
     NumberToString := fun _ => "NaN";
     ObjectToPrimitive := fun _ _ => VStr "[object Object]" |}.

Definition reliable_backend : backend :=
  Backend (fun _ => None) (fun _ => []) None 1700000000000 (fun _ => 1000%positive).

(** A backend that refuses the read inside the transaction *)
Definition unavailable_backend : backend :=
  Backend (fun c => match c with
                    | Ctransaction_get _ => Some "unavailable"
                    | _ => None
                    end)
          (fun _ => []) None 1700000000000 (fun _ => 1000%positive).

Definition sample_docs : gmap string (gmap string value) :=
  {[ "restaurants/r1" := {[ "numRatings" := VNum 0; "sumRating" := VNum 0 ]} ]}.

Definition sample_world : world :=
  World reliable_backend sample_docs [] [] [] [] [] 0 0.

Definition failing_world : world :=
  World unavailable_backend sample_docs [] [] [] [] [] 0 0.

(** One commit hits a conflict before the next gets through. *)
Definition contended_world : world :=
  World reliable_backend sample_docs [] [] [] [] [] 1 0.

(** Every attempt the transaction is allowed hits a conflict. *)
Definition exhausted_world : world :=
  World reliable_backend sample_docs [] [] [] [] [] max_attempts 0.

Definition sample_review : value :=
  VObj {[ "rating" := VNum 4; "text" := VStr "good"; "timestamp" := VStr "yesterday" ]}.

Definition sample_globals : gmap string binding :=
  {[ "db" := Initialized VFirestore ]}.

(** A backend that answers every query with the same two documents *)
Definition stocked_backend : backend :=
  Backend (fun _ => None)
          (fun _ => [("a", {[ "name" := VStr "Alpha"; "timestamp" := VTimestamp 10 ]});
                     ("b", {[ "name" := VStr "Beta"; "timestamp" := VTimestamp 20 ]})])
          None 1700000000000 (fun _ => 1000%positive).

Definition stocked_docs : gmap string (gmap string value) :=
  {[ "restaurants/a" :=
       {[ "name" := VStr "Alpha"; "timestamp" := VTimestamp 10;
          "numRatings" := VNum 2; "sumRating" := VNum 9; "avgRating" := VNum 4.5 ]} ]}.

Definition stocked_world : world :=
  World stocked_backend stocked_docs [] [] [] [] [] 0 0.

Definition sample_callback : value := VFun "render" 1.

(** A restaurant whose sum an unrated review has turned into NaN *)
Definition poisoned_world : world :=
  World reliable_backend
    {[ "restaurants/r1" := {[ "numRatings" := VNum 3; "sumRating" := VNum PrimFloat.nan ]} ]}
    [] [] [] [] [] 0 0.

Definition sample_fake_data : list (value * list value) :=
  [(VObj {[ "name" := VStr "Gamma" ]}, [VObj {[ "rating" := VNum 5 ]}]);
   (VObj {[ "name" := VStr "Delta" ]}, [])].

Definition sample_photo : value := VStr "https://example.org/a.png".

(** ** Vocabulary of the further properties *)

Section Written.
Context `{Builtins}.

(** What [updateWithRating] computes from the data it read, in the
    source's own expressions *)
Definition new_num_ratings (data : value) : value :=
  if ToBoolean (GetV_opt data "numRatings")
  then js_add (GetV_opt data "numRatings") (VNum 1)
  else VNum 1.

Definition new_sum_rating (data review : value) : value :=
  js_add (js_or (GetV_opt data "sumRating") (VNum 0))
    (VNum (ToNumber (GetV_opt review "rating"))).

Definition aggregate_update (data review : value) : value :=
  VObj {[ "numRatings" := new_num_ratings data;
          "sumRating" := new_sum_rating data review;
          "avgRating" := js_div (new_sum_rating data review) (new_num_ratings data) ]}.

(** The two documents a review submission addresses *)
Definition restaurant_path (restaurantId : value) : string :=
  "restaurants" +:+ "/" +:+ ToString restaurantId.

Definition review_path (restaurantId : value) (n : nat) : string :=
  ("restaurants/" +:+ ToString restaurantId +:+ "/ratings") +:+ "/auto" +:+ pretty n.

(** The two writes of one review submission that starts in [w] and whose
    last attempt reads the time [now] *)
Definition submission_writes (restaurantId review : value) (w : world) (now : Z)
  : list write :=
  [WUpdate (restaurant_path restaurantId)
     (aggregate_update (snapshot_data (docs w !! restaurant_path restaurantId)) review);
   WSet (review_path restaurantId (next_id w))
     (spread_with review "timestamp" (VTimestamp now))].

End Written.

(** A number, NaN included, or a value that [||] replaces *)
Definition number_or_falsy (v : value) : bool :=
  match v with
  | VNum _ => true
  | _ => negb (ToBoolean v)
  end.

(** A stored document whose [timestamp] is a Timestamp *)
Definition timestamp_of (fields : gmap string value) : option Z :=
  match fields !! "timestamp" with
  | Some (VTimestamp ms) => Some ms
  | _ => None
  end.

(** The record the list operations build from a document that has a
    Timestamp: its fields, under them the document id, over them the date *)
Definition listed (d : string * gmap string value) (ms : Z) : value :=
  VObj (<["timestamp" := VDate ms]> (d.2 ∪ {["id" := VStr d.1]})).

(** ** The writes outside a transaction

    [updateDoc] and [addDoc] write at once. Their calls are recorded in a
    trace of their own, beside the trace of the other SDK calls, and the
    backend may refuse each of them. *)

Inductive write_call : Type :=
| CupdateDoc (path : string) (fields : value)
| CaddDoc (collection_path : string) (data : value).

Record writer : Type := Writer {
  inner : world;
  write_calls : list write_call;              (* oldest first *)
  refuses : write_call -> option string;
}.

Definition W (A : Type) : Type := writer -> outcome A * writer.

#[global] Instance W_ret : MRet W := fun A a s => (Return a, s).
#[global] Instance W_bind : MBind W := fun A B f m s =>
  match m s with
  | (Return a, s') => f a s'
  | (Throw e, s') => (Throw e, s')
  end.

(** A computation of the rest of the module, run on the world inside *)
Definition within {A} (m : M A) : W A := fun s =>
  let (r, w') := m (inner s) in (r, Writer w' (write_calls s) (refuses s)).

Definition try_catch_W {A} (body : W A) (handler : error -> W A) : W A := fun s =>
  match body s with
  | (Return a, s') => (Return a, s')
  | (Throw e, s') => handler e s'
  end.

(** [updateDoc(ref, fields)]: merges the fields into an existing document,
    and is refused with not-found when there is none. *)
Definition updateDoc (path : string) (fields : value) : W unit := fun s =>
  let s' := Writer (inner s) (write_calls s ++ [CupdateDoc path fields]) (refuses s) in
  match refuses s (CupdateDoc path fields) with
  | Some code => (Throw (FirestoreError code), s')
  | None =>
      match docs (inner s) !! path with
      | Some old =>
          (Return tt,
           Writer (set_docs (<[path := own_props fields ∪ old]> (docs (inner s))) (inner s))
             (write_calls s') (refuses s))
      | None => (Throw (FirestoreError "not-found"), s')
      end
  end.

(** [addDoc(collectionRef, data)]: writes a document under a generated id
    and returns that id ([docRef.id]). *)
Definition addDoc (collection_path : string) (data : value) : W string := fun s =>
  let s' := Writer (inner s) (write_calls s ++ [CaddDoc collection_path data]) (refuses s) in
  match refuses s (CaddDoc collection_path data) with
  | Some code => (Throw (FirestoreError code), s')
  | None =>
      let id := "auto" +:+ pretty (next_id (inner s)) in
      (Return id,
       Writer (set_next_id (S (next_id (inner s)))
                 (set_docs (<[collection_path +:+ "/" +:+ id := own_props data]>
                              (docs (inner s))) (inner s)))
         (write_calls s') (refuses s))
  end.

(** [for (const x of xs) { body }] *)
Fixpoint for_of {A} (xs : list A) (body : A -> W unit) : W unit :=
  match xs with
  | [] => mret tt
  | x :: rest => body x;; for_of rest body
  end.

Section Writes.
Context `{Builtins}.

(** [updateRestaurantImageReference(restaurantId, publicImageUrl)]. The
    test [if (restaurantRef)] is on a DocumentReference, an object, and so
    always passes. *)
Definition updateRestaurantImageReference (globals : gmap string binding)
    (restaurantId publicImageUrl : value) : W unit :=
  db ← within (lift (ResolveBinding [globals] "db"));
  restaurants ← within (collection db [VStr "restaurants"]);
  restaurantRef ← within (doc_in restaurants (Some restaurantId));
  updateDoc restaurantRef (VObj {[ "photo" := publicImageUrl ]}).

(** The body of the [try] block of [addFakeRestaurantsAndReviews], for one
    generated pair *)
Definition add_fake_restaurant (globals : gmap string binding)
    (pair : value * list value) : W unit :=
  db ← within (lift (ResolveBinding [globals] "db"));
  restaurants ← within (collection db [VStr "restaurants"]);
  id ← addDoc restaurants pair.1;
  for_of pair.2 (fun ratingData =>
    db ← within (lift (ResolveBinding [globals] "db"));
    ratings ← within (collection db [VStr "restaurants"; VStr id; VStr "ratings"]);
    addDoc ratings ratingData;; mret tt).

(** [addFakeRestaurantsAndReviews()]; what the generator of fake data
    returned or threw is taken as given. *)
Definition addFakeRestaurantsAndReviews (globals : gmap string binding)
    (generated : outcome (list (value * list value))) : W unit :=
  data ← within (lift generated);
  for_of data (fun pair =>
    try_catch_W (add_fake_restaurant globals pair)
      (fun e =>
         within (console_log "There was an error adding the document" []);;
         within (console_error "Error adding document: " e))).

End Writes.

(** A computation with direct writes that leaves the backend as it is and
    only adds to the trace of direct writes *)
Definition steady {A} (m : W A) : Prop :=
  forall s,
    env (inner (m s).2) = env (inner s) /\ refuses (m s).2 = refuses s /\
    exists more, write_calls (m s).2 = write_calls s ++ more.

(** A writer on top of a world, with no direct write made and none refused *)
Definition cooperative_writer (w : world) : writer := Writer w [] (fun _ => None).

(** A writer whose backend refuses to add restaurants *)
Definition refusing_writer (w : world) : writer :=
  Writer w [] (fun c => match c with
                        | CaddDoc "restaurants" _ => Some "permission-denied"
                        | _ => None
                        end).

(** * Properties *)

(** ** The query composer *)

Lemma order_predicates_app (xs ys : list constraint) :
  order_predicates (xs ++ ys) = order_predicates xs ++ order_predicates ys.
Proof.
  induction xs as [|[f op v|f d] xs IH]; simpl; [reflexivity | exact IH |].
  by rewrite IH.
Qed.

Lemma equality_predicates_app (xs ys : list constraint) :
  equality_predicates (xs ++ ys) = equality_predicates xs ++ equality_predicates ys.
Proof.
  induction xs as [|[f op v|f d] xs IH]; simpl; [reflexivity | | exact IH].
  destruct (String.eqb op "=="); [by rewrite IH | exact IH].
Qed.

Lemma predicates_on_app (field : string) (xs ys : list constraint) :
  predicates_on field (xs ++ ys) = predicates_on field xs ++ predicates_on field ys.
Proof.
  induction xs as [|[f op v|f d] xs IH]; simpl; [reflexivity | | exact IH].
  destruct (String.eqb f field); [by rewrite IH | exact IH].
Qed.

(** A read on a truthy value never throws. *)
Lemma GetV_truthy (v : value) (k : string) :
  ToBoolean v = true -> GetV v k = Return (GetV_opt v k).
Proof.
  intros Hv. unfold GetV_opt.
  destruct v; simpl in *; try discriminate; try reflexivity;
    destruct (String.eqb k "length"); reflexivity.
Qed.

Lemma query_where_truthy (q : Query) (field op : string) (v : value) :
  ToBoolean v = true ->
  query q (Where field op v) = Return (MkQuery (q_path q) (q_constraints q ++ [Where field op v])).
Proof. by destruct v. Qed.

(** The composer on an object whose price can be compared: the query it
    was given, then one equality per truthy option, then the ordering. *)
Lemma applyQueryFilters_object (q : Query) (filters : gmap string value) :
  price_comparable filters = true ->
  applyQueryFilters q (VObj filters) =
  Return (MkQuery (q_path q)
            (q_constraints q
             ++ equality_for "category" (option_of filters "category")
                  (option_of filters "category")
             ++ equality_for "city" (option_of filters "city") (option_of filters "city")
             ++ equality_for "price" (option_of filters "price")
                  (GetV_opt (option_of filters "price") "length")
             ++ ordering_added (option_of filters "sort"))).
Proof.
  unfold price_comparable, applyQueryFilters, equality_for, ordering_added, option_of.
  destruct q as [path cs]. unfold where_, orderBy. cbn -[query].
  set (category := default VUndefined (filters !! "category")).
  set (city := default VUndefined (filters !! "city")).
  set (price := default VUndefined (filters !! "price")).
  set (sort := default VUndefined (filters !! "sort")).
  intros Hcomparable.
  destruct (ToBoolean category) eqn:Hcategory;
    [rewrite (query_where_truthy _ _ _ _ Hcategory)|]; cbn -[query];
    (destruct (ToBoolean city) eqn:Hcity;
       [rewrite (query_where_truthy _ _ _ _ Hcity)|]); cbn -[query];
    (destruct (ToBoolean price) eqn:Hprice;
       [rewrite (GetV_truthy price "length" Hprice); simpl in Hcomparable |- *;
        destruct (GetV_opt price "length"); try discriminate|]); simpl;
    destruct (strict_equals_string sort "Rating" || negb (ToBoolean sort));
    try destruct (strict_equals_string sort "Review"); simpl;
    rewrite <- ?app_assoc; simpl; rewrite ?app_nil_r; reflexivity.
Qed.

(** The composer on an object whose price cannot be compared: the SDK
    refuses the price predicate. *)
Lemma applyQueryFilters_refused (q : Query) (filters : gmap string value) :
  price_comparable filters = false ->
  applyQueryFilters q (VObj filters) = Throw (FirestoreError "invalid-argument").
Proof.
  unfold price_comparable, applyQueryFilters, option_of.
  unfold where_. cbn -[query].
  set (category := default VUndefined (filters !! "category")).
  set (city := default VUndefined (filters !! "city")).
  set (price := default VUndefined (filters !! "price")).
  intros Hrefused. apply orb_false_iff in Hrefused as [Hprice Hlength].
  apply negb_false_iff in Hprice.
  destruct (ToBoolean category) eqn:Hcategory;
    [rewrite (query_where_truthy _ _ _ _ Hcategory)|]; cbn -[query];
    (destruct (ToBoolean city) eqn:Hcity;
       [rewrite (query_where_truthy _ _ _ _ Hcity)|]); cbn -[query];
    rewrite Hprice, (GetV_truthy price "length" Hprice); simpl;
    by destruct (GetV_opt price "length").
Qed.

(** A price given as a non-empty string can be compared. *)
Lemma price_comparable_string (filters : gmap string value) (symbols : string) :
  filters !! "price" = Some (VStr symbols) -> price_comparable filters = true.
Proof.
  intros Hprice. unfold price_comparable, option_of. rewrite Hprice. simpl.
  apply orb_true_r.
Qed.

Lemma order_predicates_equality_for (field : string) (option compared : value) :
  order_predicates (equality_for field option compared) = [].
Proof. unfold equality_for. by destruct (ToBoolean option). Qed.

Lemma order_predicates_ordering_added (sort : value) :
  order_predicates (ordering_added sort) = ordering_added sort.
Proof.
  unfold ordering_added.
  destruct (strict_equals_string sort "Rating" || negb (ToBoolean sort));
    [reflexivity|]. by destruct (strict_equals_string sort "Review").
Qed.

Lemma strict_equals_string_true (v : value) (lit : string) :
  strict_equals_string v lit = true -> v = VStr lit.
Proof.
  destruct v; simpl; try discriminate.
  intros Heq. apply String.eqb_eq in Heq. by subst.
Qed.

(** C2, as the code has it: whenever the composer returns a query, which
    it does when the price option is falsy or has a [length], it has added
    at most one ordering predicate: numRatings descending when [sort] is
    "Review", avgRating descending when [sort] is "Rating" or falsy
    (absent, empty), and nothing at all for any other value of [sort].
    When the price option is truthy and has no [length], the number of a
    tier for one, the SDK refuses the price predicate: the composer throws
    invalid-argument and no ordering is applied. *)
Theorem sort_option_ordering (q : Query) (filters : gmap string value) :
  (price_comparable filters = true ->
   exists q',
     applyQueryFilters q (VObj filters) = Return q' /\
     order_predicates (q_constraints q') =
       order_predicates (q_constraints q) ++
       (let sort := option_of filters "sort" in
        if strict_equals_string sort "Review" then [OrderBy "numRatings" Desc]
        else if strict_equals_string sort "Rating" || negb (ToBoolean sort)
             then [OrderBy "avgRating" Desc]
             else [])) /\
  (price_comparable filters = false ->
   applyQueryFilters q (VObj filters) = Throw (FirestoreError "invalid-argument")).
Proof.
  split; [|apply applyQueryFilters_refused].
  intros Hcomparable.
  eexists. split; [by apply applyQueryFilters_object|]. simpl.
  rewrite !order_predicates_app, !order_predicates_equality_for,
    order_predicates_ordering_added. simpl. f_equal.
  unfold ordering_added.
  destruct (strict_equals_string (option_of filters "sort") "Review") eqn:Hreview;
    [|reflexivity].
  apply strict_equals_string_true in Hreview. by rewrite Hreview.
Qed.

Lemma sort_option_ordering_witness :
  (exists q',
     applyQueryFilters (MkQuery "restaurants" [])
       (VObj {[ "price" := VStr "$$"; "sort" := VStr "Review" ]}) = Return q' /\
     order_predicates (q_constraints q') =
       order_predicates [] ++
       (let sort :=
          option_of {[ "price" := VStr "$$"; "sort" := VStr "Review" ]} "sort" in
        if strict_equals_string sort "Review" then [OrderBy "numRatings" Desc]
        else if strict_equals_string sort "Rating" || negb (ToBoolean sort)
             then [OrderBy "avgRating" Desc]
             else [])) /\
  applyQueryFilters (MkQuery "restaurants" [])
    (VObj {[ "price" := VNum 2; "sort" := VStr "Review" ]}) =
    Throw (FirestoreError "invalid-argument").
Proof.
  split.
  - apply (proj1 (sort_option_ordering (MkQuery "restaurants" [])
                    {[ "price" := VStr "$$"; "sort" := VStr "Review" ]})).
    reflexivity.
  - apply (proj2 (sort_option_ordering (MkQuery "restaurants" [])
                    {[ "price" := VNum 2; "sort" := VStr "Review" ]})).
    reflexivity.
Defined.

(** C2, as the specification states it, fails: an unrecognized [sort]
    value gets no ordering predicate, not the avgRating default. *)
Lemma unrecognized_sort_adds_no_ordering :
  let q := MkQuery "restaurants" [] in
  let filters := VObj {[ "sort" := VStr "Distance" ]} in
  applyQueryFilters q filters = Return q /\
  applyQueryFilters q filters <> query q (OrderBy "avgRating" Desc).
Proof. split; [reflexivity | discriminate]. Qed.

(** C3, as the code has it: on a filter configuration whose price option
    is falsy or has a [length], a symbol string for one, the composer
    returns a query and throws nothing; the equality predicates it adds
    are one per truthy option among category, city and price, on that
    option's field, and none for a falsy or absent option. With category
    "Indian" and sort "Review" the query holds exactly
    [category == "Indian"] and [numRatings desc]; with no option at all,
    only [avgRating desc]. A truthy price option without a [length] makes
    the composer throw invalid-argument. *)
Theorem equality_predicate_per_present_option :
  (forall (q : Query) (filters : gmap string value),
     price_comparable filters = true ->
     let category := option_of filters "category" in
     let city := option_of filters "city" in
     let price := option_of filters "price" in
     exists q',
       applyQueryFilters q (VObj filters) = Return q' /\
       equality_predicates (q_constraints q') =
         equality_predicates (q_constraints q) ++
         (if ToBoolean category then [Where "category" "==" category] else []) ++
         (if ToBoolean city then [Where "city" "==" city] else []) ++
         (if ToBoolean price
          then [Where "price" "==" (GetV_opt price "length")] else [])) /\
  (forall (q : Query) (filters : gmap string value),
     price_comparable filters = false ->
     applyQueryFilters q (VObj filters) = Throw (FirestoreError "invalid-argument")) /\
  (forall q : Query,
     applyQueryFilters q (VObj {[ "category" := VStr "Indian"; "sort" := VStr "Review" ]}) =
     Return (MkQuery (q_path q)
               (q_constraints q ++
                [Where "category" "==" (VStr "Indian"); OrderBy "numRatings" Desc]))) /\
  (forall q : Query,
     applyQueryFilters q (VObj ∅) =
     Return (MkQuery (q_path q) (q_constraints q ++ [OrderBy "avgRating" Desc]))).
Proof.
  split; [|split; [|split]].
  - intros q filters Hcomparable. simpl. eexists.
    split; [by apply applyQueryFilters_object|]. simpl.
    rewrite !equality_predicates_app. unfold equality_for.
    f_equal. f_equal; [by destruct (ToBoolean _)|].
    f_equal; [by destruct (ToBoolean _)|].
    replace (equality_predicates (ordering_added (option_of filters "sort")))
      with (@nil constraint).
    + rewrite app_nil_r. by destruct (ToBoolean _).
    + unfold ordering_added.
      destruct (_ || _); [reflexivity|]. by destruct (strict_equals_string _ _).
  - apply applyQueryFilters_refused.
  - intros q. by rewrite applyQueryFilters_object.
  - intros q. by rewrite applyQueryFilters_object.
Qed.

Lemma equality_predicate_per_present_option_witness :
  (let filters : gmap string value :=
     {[ "category" := VStr "Indian"; "price" := VStr "$$" ]} in
   let category := option_of filters "category" in
   let city := option_of filters "city" in
   let price := option_of filters "price" in
   exists q',
     applyQueryFilters (MkQuery "restaurants" []) (VObj filters) = Return q' /\
     equality_predicates (q_constraints q') =
       equality_predicates [] ++
       (if ToBoolean category then [Where "category" "==" category] else []) ++
       (if ToBoolean city then [Where "city" "==" city] else []) ++
       (if ToBoolean price
        then [Where "price" "==" (GetV_opt price "length")] else [])) /\
  applyQueryFilters (MkQuery "restaurants" []) (VObj {[ "price" := VNum 2 ]}) =
    Throw (FirestoreError "invalid-argument").
Proof.
  split.
  - intros filters.
    apply (proj1 equality_predicate_per_present_option (MkQuery "restaurants" []) filters).
    reflexivity.
  - apply (proj1 (proj2 equality_predicate_per_present_option)
             (MkQuery "restaurants" []) {[ "price" := VNum 2 ]}).
    reflexivity.
Defined.

(** C3, as the specification states it, fails: the integer tier 2 as the
    price option is truthy, its [length] is [undefined], and the composer
    throws instead of adding a predicate. *)
Lemma integer_price_tier_is_refused :
  applyQueryFilters (MkQuery "restaurants" []) (VObj {[ "price" := VNum 2 ]}) =
    Throw (FirestoreError "invalid-argument") /\
  ToBoolean (VNum 2) = true.
Proof. split; reflexivity. Qed.

(** C4: when the price option is a non-empty symbol string, the one
    predicate the composer adds on the price field compares it with the
    number of symbols, a number and not the string; for "$$" that is
    [price == 2]. *)
Theorem price_filter_compares_symbol_count
    (q : Query) (filters : gmap string value) (symbols : string) :
  filters !! "price" = Some (VStr symbols) ->
  symbols <> "" ->
  exists q',
    applyQueryFilters q (VObj filters) = Return q' /\
    predicates_on "price" (q_constraints q') =
      predicates_on "price" (q_constraints q) ++
      [Where "price" "==" (VNum (nat_to_number (String.length symbols)))] /\
    nat_to_number (String.length "$$") = 2%float.
Proof.
  intros Hprice Hne. eexists.
  split; [by apply applyQueryFilters_object, (price_comparable_string _ symbols)|].
  split; [|reflexivity]. simpl.
  rewrite !predicates_on_app. unfold equality_for, option_of. rewrite Hprice. simpl.
  assert (String.eqb symbols "" = false) as -> by by apply String.eqb_neq.
  simpl. f_equal.
  replace (predicates_on "price" (ordering_added (default VUndefined (filters !! "sort"))))
    with (@nil constraint).
  - by destruct (ToBoolean _), (ToBoolean _).
  - unfold ordering_added.
    destruct (_ || _); [reflexivity|]. by destruct (strict_equals_string _ _).
Qed.

Lemma price_filter_compares_symbol_count_witness :
  exists q',
    applyQueryFilters (MkQuery "restaurants" []) (VObj {[ "price" := VStr "$$" ]}) =
      Return q' /\
    predicates_on "price" (q_constraints q') =
      predicates_on "price" [] ++
      [Where "price" "==" (VNum (nat_to_number (String.length "$$")))] /\
    nat_to_number (String.length "$$") = 2%float.
Proof.
  apply (price_filter_compares_symbol_count
           (MkQuery "restaurants" []) {[ "price" := VStr "$$" ]} "$$");
    [reflexivity | discriminate].
Defined.

(** ** Reasoning about computations *)

Lemma harmless_ret {A} (a : A) : harmless (mret a).
Proof. intros w. simpl. repeat split; try done. exists []. by rewrite app_nil_r. Qed.

Lemma harmless_bind {A B} (m : M A) (f : A -> M B) :
  harmless m -> (forall a, harmless (f a)) -> harmless (m ≫= f).
Proof.
  intros Hm Hf w. specialize (Hm w). unfold mbind, M_bind.
  destruct (m w) as [[a|e] w1]; simpl in *.
  - destruct Hm as (Hd & Hc & He & [more Hmore] & _).
    destruct (Hf a w1) as (Hd' & Hc' & He' & [more' Hmore'] & Hr).
    repeat split; try congruence.
    exists (more ++ more'). rewrite Hmore', Hmore. by rewrite app_assoc.
  - exact Hm.
Qed.

Lemma harmless_sdk (c : call) : harmless (sdk c).
Proof.
  intros w. unfold sdk.
  destruct (rejects (env w) c); simpl; repeat split; try done; by exists [c].
Qed.

Lemma harmless_gets {A} (f : world -> A) : harmless (gets f).
Proof. intros w. simpl. repeat split; try done. exists []. by rewrite app_nil_r. Qed.

Lemma harmless_lift {A} (o : outcome A) : not_module_error o -> harmless (lift o).
Proof. intros Ho w. simpl. repeat split; try done. exists []. by rewrite app_nil_r. Qed.

Lemma harmless_modify (f : world -> world) :
  (forall w, docs (f w) = docs w /\ console (f w) = console w /\ env (f w) = env w /\
             calls (f w) = calls w) ->
  harmless (modify f).
Proof.
  intros Hf w. destruct (Hf w) as (? & ? & ? & Hcalls). simpl. repeat split; try done.
  exists []. by rewrite app_nil_r.
Qed.

Lemma GetV_not_module_error (v : value) (k : string) : not_module_error (GetV v k).
Proof.
  destruct v; simpl; try done; by destruct (String.eqb k "length").
Qed.

Ltac harmless_step :=
  first
    [ apply harmless_bind; [|intros ?]
    | apply harmless_sdk
    | apply harmless_ret
    | apply harmless_gets
    | apply harmless_modify; intros ?; by repeat split ].

Lemma later_refl (e : backend) : later e e.
Proof. by repeat split. Qed.

Lemma later_trans (e1 e2 e3 : backend) : later e1 e2 -> later e2 e3 -> later e1 e3.
Proof.
  intros (? & ? & ? & ? & ?) (? & ? & ? & ? & ?).
  repeat split; try congruence. lia.
Qed.

Lemma later_eq (e e' : backend) : e' = e -> later e e'.
Proof. intros ->. apply later_refl. Qed.

Lemma later_advance_clock (delay : positive) (w : world) :
  later (env w) (env (advance_clock delay w)).
Proof. repeat split; try done. simpl. lia. Qed.

Lemma harmless_contained {A} (m : M A) : harmless m -> contained m.
Proof.
  intros Hm w. destruct (Hm w) as (? & ? & ? & ? & ?).
  split; [done|]. split; [by apply later_eq|]. by repeat split.
Qed.

Lemma contained_bind {A B} (m : M A) (f : A -> M B) :
  harmless m -> (forall a, contained (f a)) -> contained (m ≫= f).
Proof.
  intros Hm Hf w. specialize (Hm w). unfold mbind, M_bind.
  destruct (m w) as [[a|e] w1]; simpl in *.
  - destruct Hm as (Hd & Hc & He & [more Hmore] & _).
    destruct (Hf a w1) as (Hc' & He' & [more' Hmore'] & Hr & Hd').
    split; [congruence|]. split; [by rewrite <- He|].
    split; [|split; [done|]].
    + exists (more ++ more'). rewrite Hmore', Hmore. by rewrite app_assoc.
    + intros e He2. rewrite (Hd' e He2). exact Hd.
  - destruct Hm as (Hd & Hc & He & Hmore & Hr).
    split; [done|]. split; [by apply later_eq|]. by repeat split.
Qed.

(** A transaction that fails has changed no document, whatever the number
    of attempts. *)
Lemma contained_transaction_attempts (n : nat) (updateFunction : M unit) :
  harmless updateFunction -> contained (transaction_attempts n updateFunction).
Proof.
  intros Hbody. induction n as [|n IH]; intros w; cbn [transaction_attempts].
  - split; [done|]. split; [apply later_refl|]. repeat split; try done.
    exists []. simpl. by rewrite app_nil_r.
  - destruct (Hbody (set_tx_writes [] w)) as (Hd & Hc & He & [more Hmore] & Hr).
    destruct (updateFunction (set_tx_writes [] w)) as [[[]|e] w1]; simpl in *.
    + destruct (conflicts w1) as [|k].
      * rewrite He. simpl.
        destruct (commit_fault (env w)); simpl.
        { split; [done|]. split; [by apply later_eq|]. repeat split; try done.
          by exists more. }
        destruct (apply_writes (tx_writes w1) (docs w1)); simpl;
          (split; [done|]); (split; [by apply later_eq|]);
          repeat split; try done; by exists more.
      * set (w2 := advance_clock _ _).
        destruct (IH w2) as (Hc' & He' & [more' Hmore'] & Hr' & Hd').
        split; [by rewrite Hc'|].
        split; [apply (later_trans _ (env w2)); [|done]; subst w2; simpl;
                rewrite <- He; repeat split; try done; simpl; lia|].
        split; [|split; [done|]].
        -- exists (more ++ more'). rewrite Hmore'. subst w2. simpl. rewrite Hmore.
           by rewrite app_assoc.
        -- intros e He2. rewrite (Hd' e He2). exact Hd.
    + split; [done|]. split; [by apply later_eq|]. repeat split; try done.
      by exists more.
Qed.

Lemma sdk_accepted (c : call) (w : world) :
  rejects (env w) c = None -> sdk c w = (Return tt, add_call c w).
Proof. intros Hc. unfold sdk. by rewrite Hc. Qed.

Lemma bind_Return {A B} (m : M A) (f : A -> M B) (w w' : world) (a : A) :
  m w = (Return a, w') -> (m ≫= f) w = f a w'.
Proof. intros Hm. unfold mbind, M_bind. by rewrite Hm. Qed.

Lemma bind_Throw {A B} (m : M A) (f : A -> M B) (w w' : world) (e : error) :
  m w = (Throw e, w') -> (m ≫= f) w = (Throw e, w').
Proof. intros Hm. unfold mbind, M_bind. by rewrite Hm. Qed.


Lemma bind_assoc {A B C} (m : M A) (f : A -> M B) (g : B -> M C) (w : world) :
  ((m ≫= f) ≫= g) w = (m ≫= λ a, f a ≫= g) w.
Proof. unfold mbind, M_bind. by destruct (m w) as [[a|e] w1]. Qed.

Lemma calls_after_sdk {B} (c : call) (k : unit -> M B) (w : world) :
  (forall u, appending (k u)) ->
  exists more, calls ((sdk c ≫= k) w).2 = calls w ++ c :: more.
Proof.
  intros Hk. unfold mbind, M_bind, sdk.
  destruct (rejects (env w) c); simpl; [by exists []|].
  destruct (Hk tt (add_call c w)) as [more Hmore].
  exists more. rewrite Hmore. simpl. by rewrite <- app_assoc.
Qed.

Lemma appending_ret {A} (a : A) : appending (mret a).
Proof. intros w. exists []. simpl. by rewrite app_nil_r. Qed.

Lemma appending_bind {A B} (m : M A) (f : A -> M B) :
  appending m -> (forall a, appending (f a)) -> appending (m ≫= f).
Proof.
  intros Hm Hf w. destruct (Hm w) as [more Hmore]. unfold mbind, M_bind.
  destruct (m w) as [[a|e] w1]; simpl in *; [|by exists more].
  destruct (Hf a w1) as [more' Hmore'].
  exists (more ++ more'). rewrite Hmore', Hmore. by rewrite app_assoc.
Qed.

Lemma appending_lift {A} (o : outcome A) : appending (lift o).
Proof. intros w. exists []. simpl. by rewrite app_nil_r. Qed.

Lemma harmless_appending {A} (m : M A) : harmless m -> appending m.
Proof. intros Hm w. by destruct (Hm w) as (_ & _ & _ & Hmore & _). Qed.

Lemma contained_appending {A} (m : M A) : contained m -> appending m.
Proof. intros Hm w. by destruct (Hm w) as (_ & _ & Hmore & _). Qed.

(** ** The rating transaction *)

Section Aggregator.
Context `{Builtins}.

Lemma harmless_updateWithRating (docRef newRatingDocument : string) (review : value) :
  harmless (updateWithRating docRef newRatingDocument review).
Proof.
  unfold updateWithRating, transaction_get, transaction_update, transaction_set,
    new_Date.
  repeat harmless_step.
  - apply harmless_lift. destruct (ToBoolean _); [|done].
    pose proof (GetV_not_module_error (snapshot_data a) "numRatings") as Hget.
    by destruct (GetV _ _).
  - apply harmless_lift, GetV_not_module_error.
Qed.

Lemma contained_addReview_transaction (db restaurantId review : value) :
  contained (addReview_transaction db restaurantId review).
Proof.
  unfold addReview_transaction, collection, doc_in, runTransaction.
  repeat (apply contained_bind; [repeat harmless_step | intros ?]).
  apply contained_transaction_attempts, harmless_updateWithRating.
Qed.

Lemma GetV_opt_truthy (data : value) (k : string) :
  ToBoolean (GetV_opt data k) = true -> GetV data k = Return (GetV_opt data k).
Proof.
  unfold GetV_opt. destruct (GetV data k); [reflexivity | discriminate].
Qed.

Lemma incremented_count (data : value) :
  let numRatings := GetV_opt data "numRatings" in
  is_aggregate_field numRatings = true ->
  (if ToBoolean numRatings
   then GetV data "numRatings" ≫= λ n, mret (js_add n (VNum 1))
   else mret (VNum 1)) =
  Return (VNum (PrimFloat.add (current_or_zero numRatings) 1)).
Proof.
  intros numRatings Hfield.
  destruct (ToBoolean numRatings) eqn:Htruthy.
  - rewrite (GetV_opt_truthy _ _ Htruthy). fold numRatings.
    destruct numRatings; try discriminate. simpl in *.
    destruct (PrimFloat.is_zero n); [|reflexivity].
    by rewrite orb_true_r in Htruthy.
  - destruct numRatings; try discriminate; try reflexivity. simpl in *.
    destruct (PrimFloat.is_nan n); [discriminate|].
    destruct (PrimFloat.is_zero n); [reflexivity | discriminate].
Qed.

Lemma added_rating (sumRating : value) (rating : float) :
  is_aggregate_field sumRating = true ->
  js_add (js_or sumRating (VNum 0)) (VNum rating) =
  VNum (PrimFloat.add (current_or_zero sumRating) rating).
Proof.
  intros Hfield. unfold js_or.
  destruct sumRating; try discriminate; try reflexivity. simpl in *.
  destruct (PrimFloat.is_nan n); [discriminate|].
  by destruct (PrimFloat.is_zero n).
Qed.

(** The transaction body when the backend refuses nothing: one read, then
    the update of the aggregates and the insertion of the review, both
    buffered. *)
Lemma updateWithRating_accepted
    (w : world) (docRef newRatingDocument : string) (review : value) :
  accepting w -> ToBoolean review = true ->
  let data := snapshot_data (docs w !! docRef) in
  let numRatings := GetV_opt data "numRatings" in
  let newNumRatings :=
    if ToBoolean numRatings then js_add numRatings (VNum 1) else VNum 1 in
  let newSumRating :=
    js_add (js_or (GetV_opt data "sumRating") (VNum 0))
      (VNum (ToNumber (GetV_opt review "rating"))) in
  let fields := VObj {[ "numRatings" := newNumRatings;
                        "sumRating" := newSumRating;
                        "avgRating" := js_div newSumRating newNumRatings ]} in
  let record := spread_with review "timestamp" (VTimestamp (clock (env w))) in
  exists w',
    updateWithRating docRef newRatingDocument review w = (Return tt, w') /\
    tx_writes w' = tx_writes w ++ [WUpdate docRef fields; WSet newRatingDocument record] /\
    calls w' = calls w ++ [Ctransaction_get docRef; Ctransaction_update docRef fields;
                           Ctransaction_set newRatingDocument record] /\
    docs w' = docs w.
Proof.
  intros Hacc Hreview data numRatings newNumRatings newSumRating fields record.
  unfold updateWithRating.
  erewrite bind_Return; last first.
  { unfold transaction_get. erewrite bind_Return; [|by apply sdk_accepted]. reflexivity. }
  cbn [env add_call docs]. fold data numRatings.
  assert ((if ToBoolean numRatings
           then GetV data "numRatings" ≫= λ n, mret (js_add n (VNum 1))
           else mret (VNum 1)) = Return newNumRatings) as ->.
  { subst newNumRatings. destruct (ToBoolean numRatings) eqn:Htruthy; [|reflexivity].
    by rewrite (GetV_opt_truthy _ _ Htruthy). }
  rewrite (GetV_truthy review "rating" Hreview).
  erewrite bind_Return; [|reflexivity].
  erewrite bind_Return; [|reflexivity].
  erewrite bind_Return; last first.
  { unfold transaction_update. erewrite bind_Return; [|by apply sdk_accepted]. reflexivity. }
  erewrite bind_Return; [|reflexivity].
  unfold transaction_set. erewrite bind_Return; [|by apply sdk_accepted].
  eexists. split; [reflexivity|].
  cbn [tx_writes set_tx_writes add_call env clock calls docs].
  rewrite <- !app_assoc. by repeat split.
Qed.

(** C1: the transaction body computes newNumRatings = current count + 1,
    a missing, undefined or zero count counting as 0; newSumRating =
    current sum (0 when missing or zero) + Number(review.rating); newAvgRating =
    newSumRating / newNumRatings; and its update writes exactly these
    three fields. The stored count and sum are what the data model makes
    them, numbers other than NaN, or missing. [Number] leaves a numeric
    rating as it is. A review rated 4 on a restaurant at numRatings 0,
    sumRating 0 leaves it at 1, 4 and 4. *)
Theorem rating_aggregation :
  (forall (w : world) (docRef newRatingDocument : string) (review : value),
     accepting w -> ToBoolean review = true ->
     let data := snapshot_data (docs w !! docRef) in
     is_aggregate_field (GetV_opt data "numRatings") = true ->
     is_aggregate_field (GetV_opt data "sumRating") = true ->
     let newNumRatings :=
       (current_or_zero (GetV_opt data "numRatings") + 1)%float in
     let newSumRating :=
       (current_or_zero (GetV_opt data "sumRating")
        + ToNumber (GetV_opt review "rating"))%float in
     let newAvgRating := (newSumRating / newNumRatings)%float in
     exists w' record,
       updateWithRating docRef newRatingDocument review w = (Return tt, w') /\
       tx_writes w' = tx_writes w ++
         [WUpdate docRef (VObj {[ "numRatings" := VNum newNumRatings;
                                  "sumRating" := VNum newSumRating;
                                  "avgRating" := VNum newAvgRating ]});
          WSet newRatingDocument record]) /\
  (forall rating : float, ToNumber (VNum rating) = rating) /\
  (let start := World reliable_backend
                  {[ "restaurants/r1" :=
                       {[ "numRatings" := VNum 0; "sumRating" := VNum 0 ]} ]}
                  [] [] [] [] [] 0 0 in
   let done := addReviewToRestaurant VFirestore (VStr "r1")
                 (VObj {[ "rating" := VNum 4 ]}) start in
   done.1 = Return tt /\
   docs done.2 !! "restaurants/r1" =
     Some {[ "numRatings" := VNum 1; "sumRating" := VNum 4; "avgRating" := VNum 4 ]}).
Proof.
  split.
  - intros w docRef newRatingDocument review Hacc Hreview data Hnum Hsum.
    destruct (updateWithRating_accepted w docRef newRatingDocument review Hacc Hreview)
      as (w' & Hrun & Hwrites & _).
    exists w', (spread_with review "timestamp" (VTimestamp (clock (env w)))).
    split; [exact Hrun|]. rewrite Hwrites. fold data.
    pose proof (incremented_count data Hnum) as Hcount. simpl in Hcount.
    rewrite (added_rating _ _ Hsum).
    destruct (ToBoolean (GetV_opt data "numRatings")) eqn:Htruthy.
    + rewrite (GetV_opt_truthy _ _ Htruthy) in Hcount. simpl in Hcount.
      injection Hcount as ->. reflexivity.
    + injection Hcount as <-. reflexivity.
  - split; [reflexivity|]. split; reflexivity.
Qed.

(** C7: the record the transaction inserts is the payload with its
    [timestamp] set by the transaction body to the time read there,
    whatever [timestamp] the payload carried; every other field of the
    payload is in the record unchanged, and the record has no further
    field. On the sample review, which claims the timestamp "yesterday",
    the committed record carries the clock's time. *)
Theorem review_record_timestamp :
  (forall (w : world) (docRef newRatingDocument : string) (review : value),
     accepting w -> ToBoolean review = true ->
     exists w' update record,
       updateWithRating docRef newRatingDocument review w = (Return tt, w') /\
       tx_writes w' = tx_writes w ++ [update; WSet newRatingDocument (VObj record)] /\
       record !! "timestamp" = Some (VTimestamp (clock (env w))) /\
       forall k, k <> "timestamp" -> record !! k = own_props review !! k) /\
  (let done := addReviewToRestaurant VFirestore (VStr "r1") sample_review sample_world in
   done.1 = Return tt /\
   docs done.2 !! "restaurants/r1/ratings/auto0" =
     Some {[ "rating" := VNum 4; "text" := VStr "good";
             "timestamp" := VTimestamp (clock reliable_backend) ]}).
Proof.
  split.
  - intros w docRef newRatingDocument review Hacc Hreview.
    destruct (updateWithRating_accepted w docRef newRatingDocument review Hacc Hreview)
      as (w' & Hrun & Hwrites & _).
    eexists w', _, _. split; [exact Hrun|]. split; [exact Hwrites|].
    split; [apply lookup_insert_eq|].
    intros k Hk. by apply lookup_insert_ne.
  - split; reflexivity.
Qed.

Lemma addReview_transaction_first_call (db restaurantId review : value) (w : world) :
  exists more,
    calls (addReview_transaction db restaurantId review w).2 =
    calls w ++ Ccollection db [VStr "restaurants"] :: more.
Proof.
  unfold addReview_transaction, collection. rewrite bind_assoc.
  apply calls_after_sdk. intros _. apply contained_appending.
  unfold doc_in, runTransaction.
  repeat (apply contained_bind; [repeat harmless_step | intros ?]).
  apply contained_transaction_attempts, harmless_updateWithRating.
Qed.

(** C5: with a falsy identifier (absent, empty string) or a falsy review
    the operation throws an [Error] and the world is as it was: no SDK
    call, nothing logged. With a truthy identifier and a truthy review
    it throws no [Error] of its own, and its first act is the SDK call
    [collection(db, "restaurants")]. *)
Theorem review_preconditions :
  (forall (db restaurantId review : value) (w : world),
     ToBoolean restaurantId = false \/ ToBoolean review = false ->
     exists message,
       addReviewToRestaurant db restaurantId review w = (Throw (Error message), w)) /\
  (forall (db restaurantId review : value) (w : world),
     ToBoolean restaurantId = true -> ToBoolean review = true ->
     not_module_error (addReviewToRestaurant db restaurantId review w).1 /\
     exists more,
       calls (addReviewToRestaurant db restaurantId review w).2 =
       calls w ++ Ccollection db [VStr "restaurants"] :: more).
Proof.
  split.
  - intros db restaurantId review w Hfalsy. unfold addReviewToRestaurant.
    destruct (ToBoolean restaurantId) eqn:Hid; simpl; [|by eexists].
    destruct Hfalsy as [Hfalsy|Hfalsy]; [discriminate|]. rewrite Hfalsy. by eexists.
  - intros db restaurantId review w Hid Hreview. unfold addReviewToRestaurant.
    rewrite Hid, Hreview. simpl. unfold try_catch.
    destruct (contained_addReview_transaction db restaurantId review w)
      as (_ & _ & _ & Hr & _).
    assert (exists more,
              calls (addReview_transaction db restaurantId review w).2 =
              calls w ++ Ccollection db [VStr "restaurants"] :: more) as [more Hmore].
    { apply addReview_transaction_first_call. }
    destruct (addReview_transaction db restaurantId review w) as [[[]|e] w1]; simpl in *.
    + split; [done|]. by exists more.
    + split; [exact Hr|]. by exists more.
Qed.

(** C6: when the transaction of a review submission throws, the
    operation throws that same error, the console has gained exactly one
    line, which carries that error, and the documents are as they were
    before the call: neither the aggregates nor the review record were
    written. *)
Theorem failed_transaction_is_logged_and_rethrown
    (db restaurantId review : value) (w : world) (e : error) :
  ToBoolean restaurantId = true -> ToBoolean review = true ->
  (addReview_transaction db restaurantId review w).1 = Throw e ->
  let failed := addReviewToRestaurant db restaurantId review w in
  failed.1 = Throw e /\
  console failed.2 =
    console w ++ [LogError "There was an error adding the rating to the restaurant" e] /\
  docs failed.2 = docs w.
Proof.
  intros Hid Hreview Hthrow. unfold addReviewToRestaurant.
  rewrite Hid, Hreview. simpl. unfold try_catch.
  destruct (contained_addReview_transaction db restaurantId review w)
    as (Hconsole & _ & _ & _ & Hdocs).
  specialize (Hdocs e Hthrow).
  destruct (addReview_transaction db restaurantId review w) as [r w1].
  simpl in *. subst r. simpl. by rewrite Hconsole, Hdocs.
Qed.

(** Whatever goes wrong inside, a review submission that throws has
    changed no document. *)
Lemma failed_submission_changes_no_document
    (db restaurantId review : value) (w : world) (e : error) :
  (addReviewToRestaurant db restaurantId review w).1 = Throw e ->
  docs (addReviewToRestaurant db restaurantId review w).2 = docs w.
Proof.
  unfold addReviewToRestaurant.
  destruct (ToBoolean restaurantId); simpl; [|done].
  destruct (ToBoolean review); simpl; [|done].
  unfold try_catch.
  destruct (contained_addReview_transaction db restaurantId review w)
    as (_ & _ & _ & _ & Hdocs).
  destruct (addReview_transaction db restaurantId review w) as [[[]|e'] w1];
    simpl in *; [done|].
  intros _. by apply (Hdocs e').
Qed.

End Aggregator.

Lemma rating_aggregation_witness :
  let w := sample_world in
  let data := snapshot_data (docs w !! "restaurants/r1") in
  let newNumRatings := (current_or_zero (GetV_opt data "numRatings") + 1)%float in
  let newSumRating :=
    (current_or_zero (GetV_opt data "sumRating")
     + @ToNumber sample_builtins (GetV_opt sample_review "rating"))%float in
  let newAvgRating := (newSumRating / newNumRatings)%float in
  exists w' record,
    @updateWithRating sample_builtins "restaurants/r1" "restaurants/r1/ratings/a"
      sample_review w = (Return tt, w') /\
    tx_writes w' = tx_writes w ++
      [WUpdate "restaurants/r1" (VObj {[ "numRatings" := VNum newNumRatings;
                                         "sumRating" := VNum newSumRating;
                                         "avgRating" := VNum newAvgRating ]});
       WSet "restaurants/r1/ratings/a" record].
Proof.
  apply (proj1 (@rating_aggregation sample_builtins) sample_world
           "restaurants/r1" "restaurants/r1/ratings/a" sample_review);
    [intros c; reflexivity | reflexivity | reflexivity | reflexivity].
Defined.

Lemma review_record_timestamp_witness :
  exists w' update record,
    @updateWithRating sample_builtins "restaurants/r1" "restaurants/r1/ratings/a"
      sample_review sample_world = (Return tt, w') /\
    tx_writes w' =
      tx_writes sample_world ++ [update; WSet "restaurants/r1/ratings/a" (VObj record)] /\
    record !! "timestamp" = Some (VTimestamp (clock (env sample_world))) /\
    forall k, k <> "timestamp" -> record !! k = own_props sample_review !! k.
Proof.
  apply (proj1 (@review_record_timestamp sample_builtins) sample_world
           "restaurants/r1" "restaurants/r1/ratings/a" sample_review);
    [intros c; reflexivity | reflexivity].
Defined.

Lemma review_preconditions_witness :
  (exists message,
     @addReviewToRestaurant sample_builtins VFirestore (VStr "") sample_review
       sample_world = (Throw (Error message), sample_world)) /\
  (not_module_error
     (@addReviewToRestaurant sample_builtins VFirestore (VStr "r1") sample_review
        sample_world).1 /\
   exists more,
     calls (@addReviewToRestaurant sample_builtins VFirestore (VStr "r1") sample_review
              sample_world).2 =
     calls sample_world ++ Ccollection VFirestore [VStr "restaurants"] :: more).
Proof.
  split.
  - apply (proj1 (@review_preconditions sample_builtins)). left. reflexivity.
  - apply (proj2 (@review_preconditions sample_builtins)); reflexivity.
Defined.

Lemma failed_transaction_is_logged_and_rethrown_witness :
  let failed :=
    @addReviewToRestaurant sample_builtins VFirestore (VStr "r1") sample_review
      failing_world in
  failed.1 = Throw (FirestoreError "unavailable") /\
  console failed.2 =
    console failing_world ++
    [LogError "There was an error adding the rating to the restaurant"
       (FirestoreError "unavailable")] /\
  docs failed.2 = docs failing_world.
Proof.
  apply (@failed_transaction_is_logged_and_rethrown sample_builtins);
    reflexivity.
Defined.

(** A conflict that is retried leaves each aggregate updated once. *)
Example retried_submission_counts_once :
  let done := @addReviewToRestaurant sample_builtins VFirestore (VStr "r1")
                sample_review contended_world in
  done.1 = Return tt /\
  docs done.2 !! "restaurants/r1" =
    Some {[ "numRatings" := VNum 1; "sumRating" := VNum 4; "avgRating" := VNum 4 ]} /\
  console done.2 = [].
Proof. repeat split; reflexivity. Qed.

(** A conflict on every attempt surfaces as the store's error, logged
    once, with no document changed. *)
Example exhausted_retries_surface :
  let failed := @addReviewToRestaurant sample_builtins VFirestore (VStr "r1")
                  sample_review exhausted_world in
  failed.1 = Throw (FirestoreError "aborted") /\
  console failed.2 =
    [LogError "There was an error adding the rating to the restaurant"
       (FirestoreError "aborted")] /\
  docs failed.2 = sample_docs.
Proof. repeat split; reflexivity. Qed.

(** ** The read and subscription helpers *)

Section Reads.
Context `{Builtins}.

(** A read or subscription helper called with a falsy identifier logs
    one line and returns [undefined]; nothing else changes. *)
Lemma soft_fail_without_identifier
    (globals : gmap string binding) (db restaurantId cb : value) (w : world) :
  ToBoolean restaurantId = false ->
  getRestaurantById db restaurantId w =
    (Return VUndefined, add_log (Log "Error: Invalid ID received: " [restaurantId]) w) /\
  getRestaurantSnapshotById globals restaurantId cb w =
    (Return VUndefined, add_log (Log "Error: Invalid ID received: " [restaurantId]) w) /\
  getReviewsByRestaurantId db restaurantId w =
    (Return VUndefined,
     add_log (Log "Error: Invalid restaurantId received: " [restaurantId]) w) /\
  getReviewsSnapshotByRestaurantId globals restaurantId cb w =
    (Return VUndefined,
     add_log (Log "Error: Invalid restaurantId received: " [restaurantId]) w).
Proof.
  intros Hid.
  unfold getRestaurantById, getRestaurantSnapshotById, getReviewsByRestaurantId,
    getReviewsSnapshotByRestaurantId.
  rewrite Hid. by repeat split.
Qed.

(** The two restaurant subscriptions check their callback: one that is
    not a function gets one line logged and [undefined] back. *)
Lemma soft_fail_without_callback
    (globals : gmap string binding) (restaurantId cb filters : value) (w : world) :
  is_function cb = false ->
  getRestaurantsSnapshot globals cb filters w =
    (Return VUndefined,
     add_log (Log "Error: The callback parameter is not a function" []) w) /\
  (ToBoolean restaurantId = true ->
   getRestaurantSnapshotById globals restaurantId cb w =
     (Return VUndefined,
      add_log (Log "Error: The callback parameter is not a function" []) w)).
Proof.
  intros Hcb. unfold getRestaurantsSnapshot, getRestaurantSnapshotById.
  rewrite Hcb. split; [done|]. by intros ->.
Qed.

(** C8, where the code departs from it: the reviews subscription takes a
    callback that is not a function. It logs nothing, calls the SDK,
    registers the listener and returns the unsubscribe handle; the
    listener throws as soon as a snapshot is delivered. *)
Theorem reviews_subscription_skips_callback_check :
  let q := MkQuery "restaurants/r1/ratings" [OrderBy "timestamp" Desc] in
  let subscribed :=
    getReviewsSnapshotByRestaurantId sample_globals (VStr "r1") VUndefined sample_world in
  subscribed.1 = Return unsubscribe /\
  console subscribed.2 = [] /\
  calls subscribed.2 =
    [Ccollection VFirestore [VStr "restaurants"; VStr "r1"; VStr "ratings"];
     ConSnapshot_query q] /\
  listeners subscribed.2 = [QueryListener q VUndefined] /\
  (deliver (QueryListener q VUndefined) subscribed.2).1 =
    Throw (TypeError "cb is not a function").
Proof. repeat split; reflexivity. Qed.

(** C9: reading by a truthy identifier under which the store holds no
    document gives no not-found result: the snapshot's data is
    [undefined] and the read of its [timestamp] throws a TypeError. *)
Theorem missing_restaurant_read_throws (db restaurantId : value) (w : world) :
  ToBoolean restaurantId = true ->
  accepting w ->
  docs w !! path_of [VStr "restaurants"; restaurantId] = None ->
  snapshot_data (docs w !! path_of [VStr "restaurants"; restaurantId]) = VUndefined /\
  (getRestaurantById db restaurantId w).1 =
    Throw (TypeError "Cannot read properties of undefined (reading 'timestamp')").
Proof.
  intros Hid Hacc Hmissing. rewrite Hmissing. split; [reflexivity|].
  unfold getRestaurantById. rewrite Hid. simpl.
  unfold doc, getDoc, mbind, M_bind, sdk, gets, lift, mret, M_ret.
  rewrite Hacc. simpl. rewrite Hacc. simpl. by rewrite Hmissing.
Qed.

(** C10: called without its first argument, [getRestaurants] throws a
    ReferenceError from the initialiser [db = db], whatever the module
    scope binds [db] to, and the world is as it was: no query composed,
    no SDK call. Called with a first argument, its first act is the SDK
    call [collection(db, "restaurants")] on that argument. *)
Theorem getRestaurants_default_store_handle :
  (forall (globals : gmap string binding) (args : list value) (w : world),
     argument args 0 = VUndefined ->
     getRestaurants globals args w =
       (Throw (ReferenceError "Cannot access 'db' before initialization"), w)) /\
  (forall (globals : gmap string binding) (args : list value) (w : world),
     argument args 0 <> VUndefined ->
     exists more,
       calls (getRestaurants globals args w).2 =
       calls w ++ Ccollection (argument args 0) [VStr "restaurants"] :: more).
Proof.
  split.
  - intros globals args w Hargument. unfold getRestaurants. by rewrite Hargument.
  - intros globals args w Hargument. unfold getRestaurants.
    assert (lift (match argument args 0 with
                  | VUndefined =>
                      ResolveBinding
                        [{[ "db" := Uninitialized; "filters" := Uninitialized ]}; globals]
                        "db"
                  | v => Return v
                  end) = (mret (argument args 0) : M value)) as ->
      by by destruct (argument args 0).
    erewrite bind_Return; [|reflexivity].
    unfold collection. rewrite bind_assoc. apply calls_after_sdk. intros _.
    unfold getDocs.
    repeat first [ apply appending_bind; [|intros ?]
                 | apply appending_ret
                 | apply appending_lift
                 | apply harmless_appending; harmless_step ].
Qed.

End Reads.

Lemma missing_restaurant_read_throws_witness :
  snapshot_data
    (docs sample_world !! @path_of sample_builtins [VStr "restaurants"; VStr "r2"]) =
    VUndefined /\
  (@getRestaurantById sample_builtins VFirestore (VStr "r2") sample_world).1 =
    Throw (TypeError "Cannot read properties of undefined (reading 'timestamp')").
Proof.
  apply (@missing_restaurant_read_throws sample_builtins VFirestore (VStr "r2")
           sample_world);
    [reflexivity | intros c; reflexivity | reflexivity].
Defined.

Lemma getRestaurants_default_store_handle_witness :
  @getRestaurants sample_builtins sample_globals [] sample_world =
    (Throw (ReferenceError "Cannot access 'db' before initialization"), sample_world) /\
  exists more,
    calls (@getRestaurants sample_builtins sample_globals [VFirestore] sample_world).2 =
    calls sample_world ++ Ccollection VFirestore [VStr "restaurants"] :: more.
Proof.
  split.
  - apply (proj1 (@getRestaurants_default_store_handle sample_builtins)). reflexivity.
  - apply (proj2 (@getRestaurants_default_store_handle sample_builtins)
             sample_globals [VFirestore] sample_world).
    discriminate.
Defined.

(** ** A submission that succeeds *)

Lemma bind_Return_inv {A B} (m : M A) (f : A -> M B) (w w' : world) (b : B) :
  (m ≫= f) w = (Return b, w') ->
  exists a w1, m w = (Return a, w1) /\ f a w1 = (Return b, w').
Proof.
  unfold mbind, M_bind. destruct (m w) as [[a|e] w1]; [|discriminate].
  intros Hf. by exists a, w1.
Qed.

Lemma sdk_Return_inv (c : call) (w w' : world) (u : unit) :
  sdk c w = (Return u, w') -> w' = add_call c w.
Proof.
  unfold sdk. destruct (rejects (env w) c); [discriminate|]. by intros [= _ <-].
Qed.

Lemma string_length_app (a b : string) :
  String.length (a +:+ b) = String.length a + String.length b.
Proof. induction a as [|c a IH]; simpl; [reflexivity | by rewrite IH]. Qed.

Lemma add_nan_r (x : float) : PrimFloat.add x PrimFloat.nan = PrimFloat.nan.
Proof.
  rewrite <- (SF2Prim_Prim2SF (PrimFloat.add x PrimFloat.nan)).
  rewrite FloatAxioms.add_spec.
  replace (Prim2SF PrimFloat.nan) with S754_nan by reflexivity.
  unfold SF64add, SFadd. destruct (Prim2SF x) as [s|s| |s m e]; reflexivity.
Qed.

Lemma div_nan_l (x : float) : PrimFloat.div PrimFloat.nan x = PrimFloat.nan.
Proof.
  rewrite <- (SF2Prim_Prim2SF (PrimFloat.div PrimFloat.nan x)).
  rewrite FloatAxioms.div_spec.
  replace (Prim2SF PrimFloat.nan) with S754_nan by reflexivity.
  unfold SF64div, SFdiv. destruct (Prim2SF x) as [s|s| |s m e]; reflexivity.
Qed.

Section Submission.
Context `{Builtins}.

(** Whenever the transaction body returns, it has buffered the update of
    the aggregates and the insertion of the review, computed from the
    document it read and the clock, and touched nothing else. *)
Lemma updateWithRating_returns
    (docRef newRatingDocument : string) (review : value) (w w' : world) :
  updateWithRating docRef newRatingDocument review w = (Return tt, w') ->
  tx_writes w' = tx_writes w ++
    [WUpdate docRef (aggregate_update (snapshot_data (docs w !! docRef)) review);
     WSet newRatingDocument (spread_with review "timestamp" (VTimestamp (clock (env w))))] /\
  docs w' = docs w /\ env w' = env w /\ next_id w' = next_id w.
Proof.
  unfold updateWithRating, transaction_get, transaction_update, transaction_set,
    new_Date, gets, modify, lift.
  intros Hrun.
  apply bind_Return_inv in Hrun as (snapshot & w1 & Hget & Hrun).
  apply bind_Return_inv in Hget as ([] & w0 & Hsdk & Hget).
  apply sdk_Return_inv in Hsdk as ->. injection Hget as <- <-.
  apply bind_Return_inv in Hrun as (newNumRatings & w2 & Hcount & Hrun).
  injection Hcount as Hcount <-.
  apply bind_Return_inv in Hrun as (rating & w3 & Hrating & Hrun).
  injection Hrating as Hrating <-.
  apply bind_Return_inv in Hrun as ([] & w4 & Hupdate & Hrun).
  apply bind_Return_inv in Hupdate as ([] & w5 & Hsdk & Hupdate).
  apply sdk_Return_inv in Hsdk as ->. injection Hupdate as <-.
  apply bind_Return_inv in Hrun as (now & w6 & Hnow & Hrun).
  injection Hnow as <- <-.
  apply bind_Return_inv in Hrun as ([] & w7 & Hsdk & Hrun).
  apply sdk_Return_inv in Hsdk as ->. injection Hrun as <-.
  cbn [tx_writes set_tx_writes add_call docs env next_id clock].
  rewrite <- app_assoc. repeat split.
  assert (newNumRatings = new_num_ratings (snapshot_data (docs w !! docRef))) as ->.
  { unfold new_num_ratings. simpl in Hcount.
    destruct (ToBoolean (GetV_opt _ "numRatings")) eqn:Htruthy.
    - rewrite (GetV_opt_truthy _ _ Htruthy) in Hcount. by injection Hcount as <-.
    - by injection Hcount as <-. }
  assert (rating = GetV_opt review "rating") as ->.
  { unfold GetV_opt. by rewrite Hrating. }
  reflexivity.
Qed.

(** A transaction on the rating body that returns has committed exactly
    the writes its last attempt computes, from the documents it started
    from and the time of that attempt, which is the time it ends at,
    however many attempts it took. *)
Lemma transaction_attempts_commit
    (n : nat) (docRef newRatingDocument : string) (review : value) (w w' : world) :
  transaction_attempts n (updateWithRating docRef newRatingDocument review) w =
    (Return tt, w') ->
  apply_writes
    [WUpdate docRef (aggregate_update (snapshot_data (docs w !! docRef)) review);
     WSet newRatingDocument (spread_with review "timestamp" (VTimestamp (clock (env w'))))]
    (docs w) = Some (docs w').
Proof.
  revert w. induction n as [|n IH]; intros w; cbn [transaction_attempts];
    [discriminate|].
  destruct (updateWithRating docRef newRatingDocument review (set_tx_writes [] w))
    as [[[]|e] w1] eqn:Hbody; [|discriminate].
  apply updateWithRating_returns in Hbody as (Hwrites & Hdocs & Henv & _).
  simpl in Hwrites, Hdocs, Henv.
  cbn [env docs conflicts tx_writes set_tx_writes].
  destruct (conflicts w1) as [|k].
  - rewrite Henv. destruct (commit_fault (env w)); [discriminate|].
    rewrite Hwrites, Hdocs.
    destruct (apply_writes _ (docs w)) as [d|] eqn:Hd; [|discriminate].
    intros [= <-]. cbn [env docs set_docs set_tx_writes]. by rewrite Henv.
  - intros Hretry. apply IH in Hretry.
    cbn [docs env advance_clock set_conflicts set_tx_writes] in Hretry.
    by rewrite Hdocs in Hretry.
Qed.

(** The documents after a review submission that returned *)
Lemma addReview_transaction_commit (db restaurantId review : value) (w w' : world) :
  addReview_transaction db restaurantId review w = (Return tt, w') ->
  apply_writes (submission_writes restaurantId review w (clock (env w'))) (docs w) =
    Some (docs w').
Proof.
  unfold addReview_transaction, collection, doc_in, runTransaction, gets, modify.
  intros Hrun.
  apply bind_Return_inv in Hrun as (restaurants & w1 & Hcoll & Hrun).
  apply bind_Return_inv in Hcoll as ([] & w0 & Hsdk & Hcoll).
  apply sdk_Return_inv in Hsdk as ->. injection Hcoll as <- <-.
  apply bind_Return_inv in Hrun as (docRef & w2 & Hdoc & Hrun).
  apply bind_Return_inv in Hdoc as ([] & w0 & Hsdk & Hdoc).
  apply sdk_Return_inv in Hsdk as ->. injection Hdoc as <- <-.
  apply bind_Return_inv in Hrun as (ratings & w3 & Hcoll & Hrun).
  apply bind_Return_inv in Hcoll as ([] & w0 & Hsdk & Hcoll).
  apply sdk_Return_inv in Hsdk as ->. injection Hcoll as <- <-.
  apply bind_Return_inv in Hrun as (newRatingDocument & w4 & Hdoc & Hrun).
  apply bind_Return_inv in Hdoc as ([] & w0 & Hsdk & Hdoc).
  apply sdk_Return_inv in Hsdk as ->.
  apply bind_Return_inv in Hdoc as (n & w5 & Hn & Hdoc).
  injection Hn as <- <-.
  apply bind_Return_inv in Hdoc as ([] & w6 & Hmod & Hdoc).
  injection Hmod as <-. injection Hdoc as <- <-.
  apply bind_Return_inv in Hrun as ([] & w7 & Hsdk & Hrun).
  apply sdk_Return_inv in Hsdk as ->.
  apply transaction_attempts_commit in Hrun. exact Hrun.
Qed.

Lemma addReviewToRestaurant_returns (db restaurantId review : value) (w : world) :
  (addReviewToRestaurant db restaurantId review w).1 = Return tt ->
  ToBoolean restaurantId = true /\ ToBoolean review = true /\
  addReview_transaction db restaurantId review w =
    (Return tt, (addReviewToRestaurant db restaurantId review w).2).
Proof.
  unfold addReviewToRestaurant.
  destruct (ToBoolean restaurantId); simpl; [|discriminate].
  destruct (ToBoolean review); simpl; [|discriminate].
  unfold try_catch.
  destruct (addReview_transaction db restaurantId review w) as [[[]|e] w1];
    simpl; [done | discriminate].
Qed.

Lemma restaurant_path_not_review_path (restaurantId : value) (n : nat) :
  restaurant_path restaurantId <> review_path restaurantId n.
Proof.
  intros Heq. apply (f_equal String.length) in Heq.
  unfold restaurant_path, review_path in Heq.
  rewrite !string_length_app in Heq. simpl in Heq. lia.
Qed.

(** The documents and the console after a submission that returned *)
Lemma submission_commits (db restaurantId review : value) (w : world) :
  (addReviewToRestaurant db restaurantId review w).1 = Return tt ->
  let done := (addReviewToRestaurant db restaurantId review w).2 in
  exists old,
    docs w !! restaurant_path restaurantId = Some old /\
    docs done =
      <[review_path restaurantId (next_id w) :=
          <["timestamp" := VTimestamp (clock (env done))]> (own_props review)]>
        (<[restaurant_path restaurantId :=
             own_props (aggregate_update (VObj old) review) ∪ old]> (docs w)) /\
    console done = console w.
Proof.
  intros Hreturn done.
  apply addReviewToRestaurant_returns in Hreturn as (_ & _ & Hrun). fold done in Hrun.
  destruct (contained_addReview_transaction db restaurantId review w)
    as (Hconsole & _).
  rewrite Hrun in Hconsole. simpl in Hconsole.
  apply addReview_transaction_commit in Hrun.
  unfold submission_writes in Hrun. cbn [apply_writes apply_write] in Hrun.
  destruct (docs w !! restaurant_path restaurantId) as [old|] eqn:Hold;
    [|discriminate].
  exists old. split; [reflexivity|]. split; [|exact Hconsole].
  simpl in Hrun. by injection Hrun as <-.
Qed.

(** A submission ends on the backend it started on, at the same time or
    later. *)
Lemma submission_ends_later (db restaurantId review : value) (w : world) :
  (addReviewToRestaurant db restaurantId review w).1 = Return tt ->
  later (env w) (env (addReviewToRestaurant db restaurantId review w).2).
Proof.
  intros Hreturn.
  apply addReviewToRestaurant_returns in Hreturn as (_ & _ & Hrun).
  destruct (contained_addReview_transaction db restaurantId review w)
    as (_ & Hlater & _).
  by rewrite Hrun in Hlater.
Qed.

(** X1: a review submission that returns has written exactly two
    documents: the restaurant's, which existed before, and the review,
    stored under the restaurant's ratings at a generated id as the payload
    with the transaction's timestamp, the time of the attempt that
    committed, at which the submission ends. Every other document is as it
    was, and nothing was logged. *)
Theorem successful_submission_writes_two_documents
    (db restaurantId review : value) (w : world) :
  (addReviewToRestaurant db restaurantId review w).1 = Return tt ->
  let done := (addReviewToRestaurant db restaurantId review w).2 in
  is_Some (docs w !! restaurant_path restaurantId) /\
  is_Some (docs done !! restaurant_path restaurantId) /\
  docs done !! review_path restaurantId (next_id w) =
    Some (<["timestamp" := VTimestamp (clock (env done))]> (own_props review)) /\
  (forall path,
     path <> restaurant_path restaurantId ->
     path <> review_path restaurantId (next_id w) ->
     docs done !! path = docs w !! path) /\
  console done = console w.
Proof.
  intros Hreturn done.
  destruct (submission_commits _ _ _ _ Hreturn) as (old & Hold & Hdocs & Hconsole).
  fold done in Hdocs, Hconsole. rewrite Hdocs.
  split; [by rewrite Hold|].
  split.
  { rewrite lookup_insert_ne by (apply not_eq_sym, restaurant_path_not_review_path).
    by rewrite lookup_insert_eq. }
  split; [apply lookup_insert_eq|].
  split; [|exact Hconsole].
  intros path Hrestaurant Hreview. by rewrite !lookup_insert_ne.
Qed.

(** X2: after a review submission that returns, the restaurant's stored
    avgRating is the quotient of its stored sumRating by its stored
    numRatings, and every field other than these three is what it was. *)
Theorem stored_average_is_sum_over_count
    (db restaurantId review : value) (w : world) :
  (addReviewToRestaurant db restaurantId review w).1 = Return tt ->
  let done := (addReviewToRestaurant db restaurantId review w).2 in
  exists old new numRatings sumRating,
    docs w !! restaurant_path restaurantId = Some old /\
    docs done !! restaurant_path restaurantId = Some new /\
    new !! "numRatings" = Some numRatings /\
    new !! "sumRating" = Some sumRating /\
    new !! "avgRating" = Some (js_div sumRating numRatings) /\
    forall k, k <> "numRatings" -> k <> "sumRating" -> k <> "avgRating" ->
              new !! k = old !! k.
Proof.
  intros Hreturn done.
  destruct (submission_commits _ _ _ _ Hreturn) as (old & Hold & Hdocs & _).
  fold done in Hdocs. eexists old, _, _, _. split; [exact Hold|].
  split.
  { rewrite Hdocs, lookup_insert_ne by (apply not_eq_sym, restaurant_path_not_review_path).
    apply lookup_insert_eq. }
  cbn [own_props aggregate_update].
  split; [by apply lookup_union_Some_l|].
  split; [by apply lookup_union_Some_l|].
  split; [by apply lookup_union_Some_l|].
  intros k Hnum Hsum Havg. apply lookup_union_r.
  rewrite !lookup_insert_ne by done. by apply lookup_singleton_ne.
Qed.


(** The sum computed from a payload without rating, and from a stored NaN *)
Lemma new_sum_rating_nan (data review : value) :
  (GetV_opt review "rating" = VUndefined ->
   number_or_falsy (GetV_opt data "sumRating") = true ->
   new_sum_rating data review = VNum PrimFloat.nan /\
   js_div (new_sum_rating data review) (new_num_ratings data) = VNum PrimFloat.nan) /\
  (forall s, GetV_opt data "sumRating" = VNum s -> PrimFloat.is_nan s = true ->
   new_sum_rating data review =
     VNum (0 + ToNumber (GetV_opt review "rating"))%float).
Proof.
  split.
  - intros Hrating Hsum. unfold new_sum_rating. rewrite Hrating.
    assert (exists s, js_or (GetV_opt data "sumRating") (VNum 0) = VNum s) as [s ->].
    { unfold js_or.
      destruct (GetV_opt data "sumRating") as [| |b|n|t|fields|items|f a|ms|ms|];
        cbn [number_or_falsy] in Hsum;
        try (apply negb_true_iff in Hsum; rewrite Hsum; by eexists).
      destruct (ToBoolean (VNum n)); by eexists. }
    assert (js_add (VNum s) (VNum (ToNumber VUndefined)) = VNum PrimFloat.nan) as ->.
    { unfold js_add. simpl. f_equal. apply add_nan_r. }
    split; [reflexivity|]. unfold js_div. f_equal. apply div_nan_l.
  - intros s Hstored Hnan. unfold new_sum_rating, js_or. rewrite Hstored.
    simpl. by rewrite Hnan.
Qed.

(** X4: a review without a rating turns the aggregates into NaN, and a
    stored NaN sum is then read as 0. When the transaction body returns
    for a payload that has no [rating] and the stored sum is a number or
    falsy, the update it buffers sets sumRating and avgRating to NaN; when
    the stored sum is NaN, the update sets sumRating to 0 + Number(rating):
    the ratings summed before are gone. *)
Theorem missing_rating_poisons_the_sum
    (docRef newRatingDocument : string) (review : value) (w w' : world) :
  updateWithRating docRef newRatingDocument review w = (Return tt, w') ->
  let data := snapshot_data (docs w !! docRef) in
  (GetV_opt review "rating" = VUndefined ->
   number_or_falsy (GetV_opt data "sumRating") = true ->
   exists numRatings record,
     tx_writes w' = tx_writes w ++
       [WUpdate docRef (VObj {[ "numRatings" := numRatings;
                                "sumRating" := VNum PrimFloat.nan;
                                "avgRating" := VNum PrimFloat.nan ]});
        WSet newRatingDocument record]) /\
  (forall s, GetV_opt data "sumRating" = VNum s -> PrimFloat.is_nan s = true ->
   exists numRatings average record,
     tx_writes w' = tx_writes w ++
       [WUpdate docRef
          (VObj {[ "numRatings" := numRatings;
                   "sumRating" := VNum (0 + ToNumber (GetV_opt review "rating"))%float;
                   "avgRating" := average ]});
        WSet newRatingDocument record]).
Proof.
  intros Hrun data. apply updateWithRating_returns in Hrun as (Hwrites & _).
  fold data in Hwrites. unfold aggregate_update in Hwrites.
  destruct (new_sum_rating_nan data review) as [Hmissing Hstored].
  split.
  - intros Hrating Hsum. destruct (Hmissing Hrating Hsum) as [Hnan Havg].
    rewrite Havg, Hnan in Hwrites. by eexists _, _.
  - intros s Hs Hnan. rewrite (Hstored s Hs Hnan) in Hwrites. by eexists _, _, _.
Qed.

End Submission.

Lemma successful_submission_writes_two_documents_witness :
  let done :=
    (@addReviewToRestaurant sample_builtins VFirestore (VStr "r1") sample_review
       sample_world).2 in
  is_Some (docs sample_world !! @restaurant_path sample_builtins (VStr "r1")) /\
  is_Some (docs done !! @restaurant_path sample_builtins (VStr "r1")) /\
  docs done !! @review_path sample_builtins (VStr "r1") (next_id sample_world) =
    Some (<["timestamp" := VTimestamp (clock (env done))]>
            (own_props sample_review)) /\
  (forall path,
     path <> @restaurant_path sample_builtins (VStr "r1") ->
     path <> @review_path sample_builtins (VStr "r1") (next_id sample_world) ->
     docs done !! path = docs sample_world !! path) /\
  console done = console sample_world.
Proof.
  apply (@successful_submission_writes_two_documents sample_builtins VFirestore (VStr "r1")
           sample_review sample_world).
  reflexivity.
Defined.

Lemma stored_average_is_sum_over_count_witness :
  let done :=
    (@addReviewToRestaurant sample_builtins VFirestore (VStr "r1") sample_review
       contended_world).2 in
  exists old new numRatings sumRating,
    docs contended_world !! @restaurant_path sample_builtins (VStr "r1") = Some old /\
    docs done !! @restaurant_path sample_builtins (VStr "r1") = Some new /\
    new !! "numRatings" = Some numRatings /\
    new !! "sumRating" = Some sumRating /\
    new !! "avgRating" = Some (@js_div sample_builtins sumRating numRatings) /\
    forall k, k <> "numRatings" -> k <> "sumRating" -> k <> "avgRating" ->
              new !! k = old !! k.
Proof.
  apply (@stored_average_is_sum_over_count sample_builtins VFirestore (VStr "r1")
           sample_review contended_world).
  reflexivity.
Defined.


Lemma missing_rating_poisons_the_sum_witness :
  let unrated := VObj {[ "text" := VStr "no stars given" ]} in
  let first :=
    (@updateWithRating sample_builtins "restaurants/r1" "restaurants/r1/ratings/a"
       unrated sample_world).2 in
  let second :=
    (@updateWithRating sample_builtins "restaurants/r1" "restaurants/r1/ratings/b"
       sample_review poisoned_world).2 in
  (exists numRatings record,
     tx_writes first = tx_writes sample_world ++
       [WUpdate "restaurants/r1"
          (VObj {[ "numRatings" := numRatings;
                   "sumRating" := VNum PrimFloat.nan;
                   "avgRating" := VNum PrimFloat.nan ]});
        WSet "restaurants/r1/ratings/a" record]) /\
  (exists numRatings average record,
     tx_writes second = tx_writes poisoned_world ++
       [WUpdate "restaurants/r1"
          (VObj {[ "numRatings" := numRatings;
                   "sumRating" :=
                     VNum (0 + @ToNumber sample_builtins (GetV_opt sample_review "rating"))%float;
                   "avgRating" := average ]});
        WSet "restaurants/r1/ratings/b" record]).
Proof.
  intros unrated first second. split.
  - apply (proj1 (@missing_rating_poisons_the_sum sample_builtins "restaurants/r1"
                    "restaurants/r1/ratings/a" unrated sample_world first eq_refl));
      reflexivity.
  - apply (proj2 (@missing_rating_poisons_the_sum sample_builtins "restaurants/r1"
                    "restaurants/r1/ratings/b" sample_review poisoned_world second eq_refl)
             PrimFloat.nan);
      reflexivity.
Defined.

(** ** Reading documents *)

Lemma document_record_timestamp (d : string * gmap string value) (ms : Z) :
  timestamp_of d.2 = Some ms -> document_record d = Return (listed d ms).
Proof.
  unfold timestamp_of, document_record, listed. simpl.
  destruct (d.2 !! "timestamp") as [[]|]; try discriminate.
  by intros [= ->].
Qed.

Lemma document_record_no_timestamp (d : string * gmap string value) :
  timestamp_of d.2 = None -> exists message, document_record d = Throw (TypeError message).
Proof.
  unfold timestamp_of, document_record. simpl.
  destruct (d.2 !! "timestamp") as [[]|]; simpl; try discriminate; by eexists.
Qed.

Lemma snapshot_record_timestamp (fields : gmap string value) (ms : Z) :
  timestamp_of fields = Some ms ->
  snapshot_record (Some fields) = Return (VObj (<["timestamp" := VDate ms]> fields)).
Proof.
  unfold timestamp_of, snapshot_record, spread_with. simpl.
  destruct (fields !! "timestamp") as [[]|]; try discriminate.
  by intros [= ->].
Qed.

Lemma snapshot_record_no_timestamp (fields : gmap string value) :
  timestamp_of fields = None ->
  exists message, snapshot_record (Some fields) = Throw (TypeError message).
Proof.
  unfold timestamp_of, snapshot_record. simpl.
  destruct (fields !! "timestamp") as [[]|]; simpl; try discriminate; by eexists.
Qed.

(** Mapping documents to records keeps their number and their order when
    each has a Timestamp. *)
Lemma mapM_document_record_Return (results : list (string * gmap string value)) :
  Forall (fun d => is_Some (timestamp_of d.2)) results ->
  exists records,
    mapM document_record results = Return records /\
    Forall2 (fun d r => exists ms, timestamp_of d.2 = Some ms /\ r = listed d ms)
      results records.
Proof.
  induction 1 as [|d results [ms Hms] _ (records & Hrecords & Hall)].
  - by exists [].
  - exists (listed d ms :: records). simpl.
    rewrite (document_record_timestamp d ms Hms). simpl. rewrite Hrecords. simpl.
    split; [reflexivity|]. constructor; [by exists ms | exact Hall].
Qed.

(** One document without a Timestamp fails the whole mapping. *)
Lemma mapM_document_record_Throw (results : list (string * gmap string value)) :
  Exists (fun d => timestamp_of d.2 = None) results ->
  exists message, mapM document_record results = Throw (TypeError message).
Proof.
  induction results as [|d results IH]; intros Hmissing.
  - by apply Exists_nil in Hmissing.
  - simpl. destruct (timestamp_of d.2) as [ms|] eqn:Hms.
    + rewrite (document_record_timestamp d ms Hms). simpl.
      apply Exists_cons in Hmissing as [Hhere|Hlater]; [congruence|].
      destruct (IH Hlater) as [message ->]. by eexists.
    + destruct (document_record_no_timestamp d Hms) as [message ->]. by eexists.
Qed.

(** X5: the record of a listed document that has a Timestamp carries the
    date of that Timestamp, the document's fields otherwise, and the
    document id under [id] unless the document stores a field of that name,
    which then takes its place. *)
Theorem listed_record_fields (d : string * gmap string value) (ms : Z) :
  timestamp_of d.2 = Some ms ->
  exists record,
    document_record d = Return (VObj record) /\
    record !! "timestamp" = Some (VDate ms) /\
    record !! "id" = Some (default (VStr d.1) (d.2 !! "id")) /\
    forall k, k <> "timestamp" -> k <> "id" -> record !! k = d.2 !! k.
Proof.
  intros Hms. eexists. split; [by apply document_record_timestamp|].
  split; [apply lookup_insert_eq|].
  split.
  - rewrite lookup_insert_ne by done.
    destruct (d.2 !! "id") as [v|] eqn:Hid; simpl.
    + by apply lookup_union_Some_l.
    + rewrite lookup_union_r by done. apply lookup_singleton_eq.
  - intros k Hts Hid. rewrite lookup_insert_ne by done.
    destruct (d.2 !! k) as [v|] eqn:Hk.
    + by apply lookup_union_Some_l.
    + rewrite lookup_union_r by done. by apply lookup_singleton_ne.
Qed.

Lemma listed_record_fields_witness :
  let d : string * gmap string value :=
    ("r7", {[ "id" := VStr "legacy-7"; "timestamp" := VTimestamp 5 ]}) in
  exists record,
    document_record d = Return (VObj record) /\
    record !! "timestamp" = Some (VDate 5) /\
    record !! "id" = Some (default (VStr d.1) (d.2 !! "id")) /\
    forall k, k <> "timestamp" -> k <> "id" -> record !! k = d.2 !! k.
Proof.
  intros d. apply (listed_record_fields d 5). reflexivity.
Defined.

Section Listing.
Context `{Builtins}.

Lemma getRestaurants_accepted
    (globals : gmap string binding) (db : value) (filters : gmap string value)
    (w : world) (q : Query) :
  db <> VUndefined -> accepting w ->
  applyQueryFilters (MkQuery "restaurants" []) (VObj filters) = Return q ->
  getRestaurants globals [db; VObj filters] w =
    (records ← mapM document_record (matching (env w) q); mret (VArr records),
     add_call (CgetDocs q) (add_call (Ccollection db [VStr "restaurants"]) w)).
Proof.
  intros Hdb Hacc Hq. unfold getRestaurants.
  change (argument [db; VObj filters] 1) with (VObj filters).
  change (argument [db; VObj filters] 0) with db. cbv iota zeta.
  match goal with
  | |- context [@lift value ?m] =>
      replace m with (Return db : outcome value) by by destruct db
  end.
  erewrite bind_Return; [|reflexivity].
  erewrite bind_Return; last first.
  { unfold collection. erewrite bind_Return; [|by apply sdk_accepted]. reflexivity. }
  change (path_of [VStr "restaurants"]) with "restaurants".
  erewrite bind_Return; [|unfold lift; by rewrite Hq].
  erewrite bind_Return; last first.
  { unfold getDocs. erewrite bind_Return; [|by apply sdk_accepted]. reflexivity. }
  cbn [env add_call].
  unfold mbind at 1, M_bind at 1, lift.
  by destruct (mapM document_record (matching (env w) q)).
Qed.

(** X6: the list operation returns all or nothing. With an explicit
    store handle and a filter object whose price, if any, can be compared,
    the query it sends is the composed one; when every document the store
    returns has a Timestamp, the result holds one record per document, in
    the store's order; when one of them has none, the call throws a
    TypeError and returns no record at all. *)
Theorem getRestaurants_all_or_nothing
    (globals : gmap string binding) (db : value) (filters : gmap string value)
    (w : world) :
  db <> VUndefined -> accepting w -> price_comparable filters = true ->
  exists q,
    applyQueryFilters (MkQuery "restaurants" []) (VObj filters) = Return q /\
    calls (getRestaurants globals [db; VObj filters] w).2 =
      calls w ++ [Ccollection db [VStr "restaurants"]; CgetDocs q] /\
    (Forall (fun d => is_Some (timestamp_of d.2)) (matching (env w) q) ->
     exists records,
       (getRestaurants globals [db; VObj filters] w).1 = Return (VArr records) /\
       Forall2 (fun d r => exists ms, timestamp_of d.2 = Some ms /\ r = listed d ms)
         (matching (env w) q) records) /\
    (Exists (fun d => timestamp_of d.2 = None) (matching (env w) q) ->
     exists message,
       (getRestaurants globals [db; VObj filters] w).1 = Throw (TypeError message)).
Proof.
  intros Hdb Hacc Hcomparable.
  pose proof (applyQueryFilters_object (MkQuery "restaurants" []) filters Hcomparable)
    as Hq.
  remember (MkQuery (q_path (MkQuery "restaurants" [])) _) as q eqn:Heqq in Hq.
  clear Heqq. exists q. split; [exact Hq|].
  rewrite (getRestaurants_accepted globals db filters w q Hdb Hacc Hq).
  split; [simpl; by rewrite <- app_assoc|]. split.
  - intros Hall. destruct (mapM_document_record_Return _ Hall) as (records & Hrun & Hrec).
    exists records. simpl. by rewrite Hrun.
  - intros Hmissing. destruct (mapM_document_record_Throw _ Hmissing) as [message Hrun].
    exists message. simpl. by rewrite Hrun.
Qed.

(** X7: a filter configuration that is [null] makes the composer throw a
    TypeError, as does [undefined] handed to it directly; the list
    operation called with [null] filters has by then only named the
    collection: no query is sent. *)
Theorem null_filters_throw
    (globals : gmap string binding) (db : value) (q : Query) (w : world) :
  db <> VUndefined -> accepting w ->
  (exists message, applyQueryFilters q VNull = Throw (TypeError message)) /\
  (exists message, applyQueryFilters q VUndefined = Throw (TypeError message)) /\
  exists message,
    getRestaurants globals [db; VNull] w =
      (Throw (TypeError message), add_call (Ccollection db [VStr "restaurants"]) w).
Proof.
  intros Hdb Hacc. split; [by eexists|]. split; [by eexists|].
  unfold getRestaurants.
  change (argument [db; VNull] 1) with VNull.
  change (argument [db; VNull] 0) with db. cbv iota zeta.
  match goal with
  | |- context [@lift value ?m] =>
      replace m with (Return db : outcome value) by by destruct db
  end.
  erewrite bind_Return; [|reflexivity].
  erewrite bind_Return; last first.
  { unfold collection. erewrite bind_Return; [|by apply sdk_accepted]. reflexivity. }
  by eexists.
Qed.

(** X8: the reviews of a restaurant are asked for most recent first and
    returned all or nothing. With a truthy identifier the one query sent
    reads the restaurant's ratings ordered by timestamp descending, with
    no other constraint; the records come back one per document in the
    store's order, or the call throws a TypeError when a document has no
    Timestamp. *)
Theorem getReviewsByRestaurantId_most_recent_first
    (db restaurantId : value) (w : world) :
  ToBoolean restaurantId = true -> accepting w ->
  let q := MkQuery (path_of [VStr "restaurants"; restaurantId; VStr "ratings"])
             [OrderBy "timestamp" Desc] in
  calls (getReviewsByRestaurantId db restaurantId w).2 =
    calls w ++ [Ccollection db [VStr "restaurants"; restaurantId; VStr "ratings"];
                CgetDocs q] /\
  (Forall (fun d => is_Some (timestamp_of d.2)) (matching (env w) q) ->
   exists records,
     (getReviewsByRestaurantId db restaurantId w).1 = Return (VArr records) /\
     Forall2 (fun d r => exists ms, timestamp_of d.2 = Some ms /\ r = listed d ms)
       (matching (env w) q) records) /\
  (Exists (fun d => timestamp_of d.2 = None) (matching (env w) q) ->
   exists message,
     (getReviewsByRestaurantId db restaurantId w).1 = Throw (TypeError message)).
Proof.
  intros Hid Hacc q.
  assert (getReviewsByRestaurantId db restaurantId w =
          (records ← mapM document_record (matching (env w) q); mret (VArr records),
           add_call (CgetDocs q)
             (add_call (Ccollection db [VStr "restaurants"; restaurantId; VStr "ratings"])
                w))) as ->.
  { unfold getReviewsByRestaurantId. rewrite Hid. cbn [negb].
    erewrite bind_Return; last first.
    { unfold collection. erewrite bind_Return; [|by apply sdk_accepted]. reflexivity. }
    erewrite (bind_Return _ _ _ _ q); [|reflexivity].
    erewrite bind_Return; last first.
    { unfold getDocs. erewrite bind_Return; [|by apply sdk_accepted]. reflexivity. }
    cbn [env add_call].
    unfold mbind at 1, M_bind at 1, lift.
    by destruct (mapM document_record (matching (env w) q)). }
  split; [simpl; by rewrite <- app_assoc|]. split.
  - intros Hall. destruct (mapM_document_record_Return _ Hall) as (records & Hrun & Hrec).
    exists records. simpl. by rewrite Hrun.
  - intros Hmissing. destruct (mapM_document_record_Throw _ Hmissing) as [message Hrun].
    exists message. simpl. by rewrite Hrun.
Qed.

(** X9: reading a restaurant that exists changes nothing in the store
    and returns its fields with the Timestamp under [timestamp] turned into
    a date; a restaurant stored without a Timestamp there cannot be read:
    the call throws a TypeError. *)
Theorem getRestaurantById_existing
    (db restaurantId : value) (w : world) (fields : gmap string value) :
  ToBoolean restaurantId = true -> accepting w ->
  docs w !! path_of [VStr "restaurants"; restaurantId] = Some fields ->
  docs (getRestaurantById db restaurantId w).2 = docs w /\
  (forall ms, timestamp_of fields = Some ms ->
     (getRestaurantById db restaurantId w).1 =
       Return (VObj (<["timestamp" := VDate ms]> fields))) /\
  (timestamp_of fields = None ->
     exists message, (getRestaurantById db restaurantId w).1 = Throw (TypeError message)).
Proof.
  intros Hid Hacc Hfields.
  assert (getRestaurantById db restaurantId w =
          (snapshot_record (Some fields),
           add_call (CgetDoc (path_of [VStr "restaurants"; restaurantId]))
             (add_call (Cdoc db [VStr "restaurants"; restaurantId]) w))) as ->.
  { unfold getRestaurantById. rewrite Hid. cbn [negb].
    erewrite bind_Return; last first.
    { unfold doc. erewrite bind_Return; [|by apply sdk_accepted]. reflexivity. }
    erewrite bind_Return; last first.
    { unfold getDoc. erewrite bind_Return; [|by apply sdk_accepted]. reflexivity. }
    cbn [docs add_call]. by rewrite Hfields. }
  split; [reflexivity|]. split.
  - intros ms Hms. simpl. by apply snapshot_record_timestamp.
  - intros Hms. simpl. by apply snapshot_record_no_timestamp.
Qed.

End Listing.

(** ** The composer, further *)

(** X10: the composer never drops or reorders what the query already
    holds. On a filter object whose price, if any, can be compared it
    returns a query: the path is kept, the constraints it was given come
    first, at most four are added after them, and among the added ones
    every equality comes before the ordering. *)
Theorem composer_extends_the_query (q : Query) (filters : gmap string value) :
  price_comparable filters = true ->
  exists q' added,
    applyQueryFilters q (VObj filters) = Return q' /\
    q_path q' = q_path q /\
    q_constraints q' = q_constraints q ++ added /\
    length added <= 4 /\
    added = equality_predicates added ++ order_predicates added.
Proof.
  intros Hcomparable.
  eexists _, _. split; [by apply applyQueryFilters_object|]. clear Hcomparable.
  split; [reflexivity|]. split; [reflexivity|].
  unfold equality_for, ordering_added.
  destruct (ToBoolean (option_of filters "category")),
    (ToBoolean (option_of filters "city")),
    (ToBoolean (option_of filters "price")),
    (strict_equals_string (option_of filters "sort") "Rating"
     || negb (ToBoolean (option_of filters "sort")));
    try destruct (strict_equals_string (option_of filters "sort") "Review");
    simpl; split; (lia || reflexivity).
Qed.

Lemma composer_extends_the_query_witness :
  exists q' added,
    applyQueryFilters (MkQuery "restaurants" [Where "open" "==" (VBool true)])
      (VObj {[ "city" := VStr "Rome"; "price" := VStr "$$"; "sort" := VStr "Review" ]}) =
      Return q' /\
    q_path q' = "restaurants" /\
    q_constraints q' = [Where "open" "==" (VBool true)] ++ added /\
    length added <= 4 /\
    added = equality_predicates added ++ order_predicates added.
Proof.
  apply (composer_extends_the_query
           (MkQuery "restaurants" [Where "open" "==" (VBool true)])
           {[ "city" := VStr "Rome"; "price" := VStr "$$"; "sort" := VStr "Review" ]}).
  reflexivity.
Defined.

Section Refusal.
Context `{Builtins}.

(** X11: a price option given as a number, the integer tier itself, is
    compared through its [length], which a number does not have: the
    composer asks for a predicate that compares the price with
    [undefined], the SDK refuses it, and the composer throws
    invalid-argument whatever the other options are. The list operation
    called with such filters throws that error when it has only named the
    collection: no query is sent. *)
Theorem numeric_price_is_refused
    (globals : gmap string binding) (db : value) (q : Query)
    (filters : gmap string value) (tier : float) (w : world) :
  filters !! "price" = Some (VNum tier) ->
  ToBoolean (VNum tier) = true ->
  db <> VUndefined -> accepting w ->
  GetV (VNum tier) "length" = Return VUndefined /\
  applyQueryFilters q (VObj filters) = Throw (FirestoreError "invalid-argument") /\
  getRestaurants globals [db; VObj filters] w =
    (Throw (FirestoreError "invalid-argument"),
     add_call (Ccollection db [VStr "restaurants"]) w).
Proof.
  intros Hprice Htruthy Hdb Hacc.
  assert (forall q', applyQueryFilters q' (VObj filters) =
                     Throw (FirestoreError "invalid-argument")) as Hrefused.
  { intros q'. apply applyQueryFilters_refused.
    unfold price_comparable, option_of. rewrite Hprice.
    change (default VUndefined (Some (VNum tier))) with (VNum tier).
    by rewrite Htruthy. }
  split; [reflexivity|]. split; [apply Hrefused|].
  unfold getRestaurants.
  change (argument [db; VObj filters] 1) with (VObj filters).
  change (argument [db; VObj filters] 0) with db. cbv iota zeta.
  match goal with
  | |- context [@lift value ?m] =>
      replace m with (Return db : outcome value) by by destruct db
  end.
  erewrite bind_Return; [|reflexivity].
  erewrite bind_Return; last first.
  { unfold collection. erewrite bind_Return; [|by apply sdk_accepted]. reflexivity. }
  erewrite bind_Throw; [reflexivity|]. unfold lift. by rewrite Hrefused.
Qed.

End Refusal.

Lemma numeric_price_is_refused_witness :
  GetV (VNum 2) "length" = Return VUndefined /\
  applyQueryFilters (MkQuery "restaurants" [])
    (VObj {[ "price" := VNum 2; "city" := VStr "Rome" ]}) =
    Throw (FirestoreError "invalid-argument") /\
  @getRestaurants sample_builtins sample_globals
    [VFirestore; VObj {[ "price" := VNum 2; "city" := VStr "Rome" ]}] stocked_world =
    (Throw (FirestoreError "invalid-argument"),
     add_call (Ccollection VFirestore [VStr "restaurants"]) stocked_world).
Proof.
  apply (@numeric_price_is_refused sample_builtins sample_globals VFirestore
           (MkQuery "restaurants" [])
           {[ "price" := VNum 2; "city" := VStr "Rome" ]} 2 stocked_world);
    [reflexivity | reflexivity | discriminate | intros c; reflexivity].
Defined.

(** ** Subscriptions *)

Section Subscriptions.
Context `{Builtins}.

(** X12: subscribing to the restaurants with a filter object whose price,
    if any, can be compared registers one listener for the composed query
    and calls nothing back by itself. Each delivery to that
    listener calls the callback once, with one record per document in the
    store's order, when every document has a Timestamp; when one has none,
    the listener throws a TypeError and the callback is not called. *)
Theorem restaurants_subscription_delivers
    (globals : gmap string binding) (db cb : value) (filters : gmap string value)
    (w : world) :
  is_function cb = true -> globals !! "db" = Some (Initialized db) -> accepting w ->
  price_comparable filters = true ->
  exists q,
    applyQueryFilters (MkQuery "restaurants" []) (VObj filters) = Return q /\
    let subscribed := getRestaurantsSnapshot globals cb (VObj filters) w in
    subscribed.1 = Return unsubscribe /\
    listeners subscribed.2 = listeners w ++ [QueryListener q cb] /\
    invoked subscribed.2 = invoked w /\
    (Forall (fun d => is_Some (timestamp_of d.2)) (matching (env w) q) ->
     exists records,
       deliver (QueryListener q cb) subscribed.2 =
         (Return tt, add_invoked (cb, VArr records) subscribed.2) /\
       Forall2 (fun d r => exists ms, timestamp_of d.2 = Some ms /\ r = listed d ms)
         (matching (env w) q) records) /\
    (Exists (fun d => timestamp_of d.2 = None) (matching (env w) q) ->
     exists message,
       deliver (QueryListener q cb) subscribed.2 = (Throw (TypeError message), subscribed.2)).
Proof.
  intros Hcb Hdb Hacc Hcomparable.
  pose proof (applyQueryFilters_object (MkQuery "restaurants" []) filters Hcomparable)
    as Hq.
  remember (MkQuery (q_path (MkQuery "restaurants" [])) _) as q eqn:Heqq in Hq.
  clear Heqq. exists q. split; [exact Hq|].
  assert (getRestaurantsSnapshot globals cb (VObj filters) w =
          (Return unsubscribe,
           add_listener (QueryListener q cb)
             (add_call (ConSnapshot_query q)
                (add_call (Ccollection db [VStr "restaurants"]) w)))) as ->.
  { unfold getRestaurantsSnapshot. rewrite Hcb. cbn [negb].
    erewrite bind_Return; [|unfold lift; simpl; by rewrite Hdb].
    erewrite bind_Return; last first.
    { unfold collection. erewrite bind_Return; [|by apply sdk_accepted]. reflexivity. }
    change (path_of [VStr "restaurants"]) with "restaurants".
    erewrite bind_Return; [|unfold lift; by rewrite Hq].
    unfold onSnapshot_query.
    erewrite bind_Return; [|by apply sdk_accepted].
    reflexivity. }
  cbn zeta. split; [reflexivity|]. split; [reflexivity|]. split; [reflexivity|].
  unfold deliver, on_query_snapshot, gets, lift, call_function.
  unfold mbind, M_bind. cbn [fst snd env add_listener add_call].
  split.
  - intros Hall. destruct (mapM_document_record_Return _ Hall) as (records & Hrun & Hrec).
    exists records. by rewrite Hrun, Hcb.
  - intros Hmissing. destruct (mapM_document_record_Throw _ Hmissing) as [message Hrun].
    exists message. by rewrite Hrun.
Qed.

(** X13: a subscription to one restaurant registers one listener on its
    document. When the document does not exist, each delivery throws a
    TypeError inside the listener and the callback is not called; when it
    exists with a Timestamp, the callback is called once with its fields,
    the Timestamp turned into a date. *)
Theorem restaurant_subscription_delivers
    (globals : gmap string binding) (db restaurantId cb : value) (w : world) :
  ToBoolean restaurantId = true -> is_function cb = true ->
  globals !! "db" = Some (Initialized db) -> accepting w ->
  let path := path_of [VStr "restaurants"; restaurantId] in
  let subscribed := getRestaurantSnapshotById globals restaurantId cb w in
  subscribed.1 = Return unsubscribe /\
  listeners subscribed.2 = listeners w ++ [DocListener path cb] /\
  invoked subscribed.2 = invoked w /\
  (docs w !! path = None ->
   exists message,
     deliver (DocListener path cb) subscribed.2 = (Throw (TypeError message), subscribed.2)) /\
  (forall fields ms,
     docs w !! path = Some fields -> timestamp_of fields = Some ms ->
     deliver (DocListener path cb) subscribed.2 =
       (Return tt,
        add_invoked (cb, VObj (<["timestamp" := VDate ms]> fields)) subscribed.2)).
Proof.
  intros Hid Hcb Hdb Hacc path.
  assert (getRestaurantSnapshotById globals restaurantId cb w =
          (Return unsubscribe,
           add_listener (DocListener path cb)
             (add_call (ConSnapshot_doc path)
                (add_call (Cdoc db [VStr "restaurants"; restaurantId]) w)))) as ->.
  { unfold getRestaurantSnapshotById. rewrite Hid, Hcb. cbn [negb].
    erewrite bind_Return; [|unfold lift; simpl; by rewrite Hdb].
    erewrite bind_Return; last first.
    { unfold doc. erewrite bind_Return; [|by apply sdk_accepted]. reflexivity. }
    unfold onSnapshot_doc.
    erewrite bind_Return; [|by apply sdk_accepted].
    reflexivity. }
  cbn zeta. split; [reflexivity|]. split; [reflexivity|]. split; [reflexivity|].
  unfold deliver, on_doc_snapshot, gets, lift, call_function.
  unfold mbind, M_bind. cbn [fst snd docs add_listener add_call].
  split.
  - intros ->. by eexists.
  - intros fields ms -> Hms. by rewrite (snapshot_record_timestamp fields ms Hms), Hcb.
Qed.

End Subscriptions.

(** ** Direct writes *)

Lemma W_bind_Return {A B} (m : W A) (f : A -> W B) (s s' : writer) (a : A) :
  m s = (Return a, s') -> (m ≫= f) s = f a s'.
Proof. intros Hm. unfold mbind, W_bind. by rewrite Hm. Qed.

Lemma within_run {A} (m : M A) (s : writer) (r : outcome A) (w' : world) :
  m (inner s) = (r, w') -> within m s = (r, Writer w' (write_calls s) (refuses s)).
Proof. intros Hm. unfold within. by rewrite Hm. Qed.

Lemma steady_ret {A} (a : A) : steady (mret a : W A).
Proof. intros s. simpl. repeat split. exists []. by rewrite app_nil_r. Qed.

Lemma steady_bind {A B} (m : W A) (f : A -> W B) :
  steady m -> (forall a, steady (f a)) -> steady (m ≫= f).
Proof.
  intros Hm Hf s. specialize (Hm s). unfold mbind, W_bind.
  destruct (m s) as [[a|e] s1]; simpl in *; [|exact Hm].
  destruct Hm as (Henv & Href & [more Hmore]).
  destruct (Hf a s1) as (Henv' & Href' & [more' Hmore']).
  repeat split; try congruence.
  exists (more ++ more'). rewrite Hmore', Hmore. by rewrite app_assoc.
Qed.

Lemma steady_within {A} (m : M A) :
  (forall w, env (m w).2 = env w) -> steady (within m).
Proof.
  intros Hm s. unfold within. specialize (Hm (inner s)).
  destruct (m (inner s)) as [r w']. simpl in *.
  repeat split; [exact Hm|]. exists []. by rewrite app_nil_r.
Qed.

Lemma steady_within_harmless {A} (m : M A) : harmless m -> steady (within m).
Proof.
  intros Hm. apply steady_within. intros w. by destruct (Hm w) as (_ & _ & Henv & _).
Qed.

Lemma steady_addDoc (collection_path : string) (data : value) :
  steady (addDoc collection_path data).
Proof.
  intros s. unfold addDoc.
  destruct (refuses s _); simpl; repeat split; by eexists.
Qed.

Lemma steady_try_catch {A} (body : W A) (handler : error -> W A) :
  steady body -> (forall e, steady (handler e)) -> steady (try_catch_W body handler).
Proof.
  intros Hbody Hhandler s. specialize (Hbody s). unfold try_catch_W.
  destruct (body s) as [[a|e] s1]; simpl in *; [exact Hbody|].
  destruct Hbody as (Henv & Href & [more Hmore]).
  destruct (Hhandler e s1) as (Henv' & Href' & [more' Hmore']).
  repeat split; try congruence.
  exists (more ++ more'). rewrite Hmore', Hmore. by rewrite app_assoc.
Qed.

Lemma steady_for_of {A} (xs : list A) (body : A -> W unit) :
  (forall x, steady (body x)) -> steady (for_of xs body).
Proof.
  intros Hbody. induction xs as [|x xs IH]; simpl.
  - apply steady_ret.
  - apply steady_bind; [apply Hbody | intros _; exact IH].
Qed.

Section DirectWrites.
Context `{Builtins}.

Lemma collection_accepted (db : value) (segments : list value) (w : world) :
  accepting w ->
  collection db segments w = (Return (path_of segments), add_call (Ccollection db segments) w).
Proof.
  intros Hacc. unfold collection. erewrite bind_Return; [|by apply sdk_accepted].
  reflexivity.
Qed.

Lemma harmless_collection (db : value) (segments : list value) :
  harmless (collection db segments).
Proof. unfold collection. repeat harmless_step. Qed.

Lemma harmless_doc_in (collection_path : string) (id : option value) :
  harmless (doc_in collection_path id).
Proof. unfold doc_in. destruct id; repeat harmless_step. Qed.

Lemma updateRestaurantImageReference_accepted
    (globals : gmap string binding) (db restaurantId publicImageUrl : value)
    (s : writer) (old : gmap string value) :
  globals !! "db" = Some (Initialized db) -> accepting (inner s) ->
  refuses s (CupdateDoc (restaurant_path restaurantId)
               (VObj {[ "photo" := publicImageUrl ]})) = None ->
  docs (inner s) !! restaurant_path restaurantId = Some old ->
  updateRestaurantImageReference globals restaurantId publicImageUrl s =
    (Return tt,
     Writer
       (set_docs
          (<[restaurant_path restaurantId := <["photo" := publicImageUrl]> old]>
             (docs (inner s)))
          (add_call (Cdoc_in "restaurants" (Some restaurantId))
             (add_call (Ccollection db [VStr "restaurants"]) (inner s))))
       (write_calls s ++
        [CupdateDoc (restaurant_path restaurantId) (VObj {[ "photo" := publicImageUrl ]})])
       (refuses s)).
Proof.
  intros Hdb Hacc Hrefuses Hold.
  unfold updateRestaurantImageReference.
  erewrite W_bind_Return; last first.
  { apply within_run. unfold lift. simpl. by rewrite Hdb. }
  erewrite W_bind_Return; [|by apply within_run, collection_accepted].
  erewrite W_bind_Return; last first.
  { apply within_run. unfold doc_in. erewrite bind_Return; [|by apply sdk_accepted].
    reflexivity. }
  change (path_of [VStr "restaurants"] +:+ "/" +:+ ToString restaurantId)
    with (restaurant_path restaurantId).
  change (path_of [VStr "restaurants"]) with "restaurants".
  unfold updateDoc. cbn [inner refuses write_calls docs add_call].
  rewrite Hrefuses, Hold. cbn [own_props].
  by rewrite (insert_union_singleton_l old).
Qed.

(** X14: the image reference of a restaurant that exists is replaced
    whatever the identifier looks like, there being no check on it: the
    document keeps every field but [photo], which is the new URL; no other
    document changes and nothing is logged. *)
Theorem image_reference_replaces_photo_only
    (globals : gmap string binding) (db restaurantId publicImageUrl : value)
    (s : writer) (old : gmap string value) :
  globals !! "db" = Some (Initialized db) -> accepting (inner s) ->
  refuses s (CupdateDoc (restaurant_path restaurantId)
               (VObj {[ "photo" := publicImageUrl ]})) = None ->
  docs (inner s) !! restaurant_path restaurantId = Some old ->
  let updated := updateRestaurantImageReference globals restaurantId publicImageUrl s in
  updated.1 = Return tt /\
  (exists new,
     docs (inner updated.2) !! restaurant_path restaurantId = Some new /\
     new !! "photo" = Some publicImageUrl /\
     forall k, k <> "photo" -> new !! k = old !! k) /\
  (forall path, path <> restaurant_path restaurantId ->
     docs (inner updated.2) !! path = docs (inner s) !! path) /\
  console (inner updated.2) = console (inner s).
Proof.
  intros Hdb Hacc Hrefuses Hold updated. subst updated.
  rewrite (updateRestaurantImageReference_accepted _ _ _ _ _ _ Hdb Hacc Hrefuses Hold).
  cbn [fst snd inner docs set_docs console add_call].
  split; [reflexivity|]. split.
  - eexists. split; [apply lookup_insert_eq|].
    split; [apply lookup_insert_eq|]. intros k Hk. by apply lookup_insert_ne.
  - split; [|reflexivity]. intros path Hpath. by apply lookup_insert_ne.
Qed.

(** X15: an image reference update that throws has changed no document,
    and the operation never writes to the console: its errors reach the
    caller unlogged. *)
Theorem image_reference_failure_changes_nothing
    (globals : gmap string binding) (restaurantId publicImageUrl : value)
    (s : writer) (e : error) :
  (updateRestaurantImageReference globals restaurantId publicImageUrl s).1 = Throw e ->
  docs (inner (updateRestaurantImageReference globals restaurantId publicImageUrl s).2) =
    docs (inner s) /\
  console (inner (updateRestaurantImageReference globals restaurantId publicImageUrl s).2) =
    console (inner s).
Proof.
  unfold updateRestaurantImageReference, mbind, W_bind, within, lift.
  destruct (ResolveBinding [globals] "db") as [db|e0]; cbn [inner]; [|done].
  pose proof (harmless_collection db [VStr "restaurants"] (inner s))
    as (Hd1 & Hc1 & _).
  destruct (collection db [VStr "restaurants"] (inner s)) as [[restaurants|e1] w1];
    cbn [inner fst snd] in *; [|done].
  pose proof (harmless_doc_in restaurants (Some restaurantId) w1) as (Hd2 & Hc2 & _).
  destruct (doc_in restaurants (Some restaurantId) w1) as [[ref|e2] w2];
    cbn [inner fst snd] in *; [|intros _; split; congruence].
  unfold updateDoc. cbn [inner refuses write_calls].
  destruct (refuses s _); cbn [fst snd inner]; [intros _; split; congruence|].
  destruct (docs w2 !! ref); cbn [fst snd inner]; [discriminate|].
  intros _. split; congruence.
Qed.

(** The handler of the seeding loop always returns. *)
Lemma seeding_handler_returns (e : error) (s : writer) :
  exists s',
    (within (console_log "There was an error adding the document" []);;
     within (console_error "Error adding document: " e)) s = (Return tt, s') /\
    console (inner s') =
      console (inner s) ++ [Log "There was an error adding the document" [];
                            LogError "Error adding document: " e] /\
    docs (inner s') = docs (inner s).
Proof.
  eexists. split; [reflexivity|]. simpl. by rewrite <- app_assoc.
Qed.

Lemma for_of_returns {A} (xs : list A) (body : A -> W unit) (s : writer) :
  (forall x s0, (body x s0).1 = Return tt) -> (for_of xs body s).1 = Return tt.
Proof.
  intros Hbody. revert s. induction xs as [|x xs IH]; intros s; simpl; [reflexivity|].
  unfold mbind, W_bind. specialize (Hbody x s).
  destruct (body x s) as [[[]|e] s1]; simpl in *; [apply IH | discriminate].
Qed.

(** X16: seeding never throws once the fake data is there: whatever the
    backend refuses is caught restaurant by restaurant. When the generator
    itself throws, that error reaches the caller with nothing written or
    logged. *)
Theorem seeding_never_throws
    (globals : gmap string binding) (data : list (value * list value))
    (e : error) (s : writer) :
  (addFakeRestaurantsAndReviews globals (Return data) s).1 = Return tt /\
  addFakeRestaurantsAndReviews globals (Throw e) s = (Throw e, s).
Proof.
  split; [|by destruct s].
  unfold addFakeRestaurantsAndReviews.
  erewrite W_bind_Return; [|by destruct s].
  apply for_of_returns. intros pair s0. unfold try_catch_W.
  destruct (add_fake_restaurant globals pair s0) as [[[]|e0] s1]; [reflexivity|].
  by destruct (seeding_handler_returns e0 s1) as (s' & -> & _).
Qed.

End DirectWrites.

(** ** Seeding *)

Section Seeding.
Context `{Builtins}.

(** The [catch] block of the seeding loop *)
Local Abbreviation seeding_handler :=
  (fun e : error =>
     within (console_log "There was an error adding the document" []);;
     within (console_error "Error adding document: " e)).

(** The loop over the ratings of one fake restaurant *)
Local Abbreviation add_fake_ratings globals id :=
  (fun ratingData : value =>
     db ← within (lift (ResolveBinding [globals] "db"));
     ratings ← within (collection db [VStr "restaurants"; VStr id; VStr "ratings"]);
     addDoc ratings ratingData;; mret tt).

Lemma steady_add_fake_ratings
    (globals : gmap string binding) (id : string) (ratingsData : list value) :
  steady (for_of ratingsData (add_fake_ratings globals id)).
Proof.
  apply steady_for_of. intros ratingData.
  apply steady_bind; [by apply steady_within|]. intros db.
  apply steady_bind; [apply steady_within_harmless, harmless_collection|]. intros ratings.
  apply steady_bind; [apply steady_addDoc|]. intros _. apply steady_ret.
Qed.

Lemma steady_seeding_handler (e : error) : steady (seeding_handler e).
Proof. apply steady_bind; [|intros _]; by apply steady_within. Qed.

(** Under a backend that accepts the reference calls, the attempt on one
    restaurant starts with its [addDoc]. *)
Lemma add_fake_restaurant_attempted
    (globals : gmap string binding) (db : value) (pair : value * list value)
    (s : writer) :
  globals !! "db" = Some (Initialized db) -> accepting (inner s) ->
  exists more,
    write_calls (add_fake_restaurant globals pair s).2 =
    write_calls s ++ CaddDoc "restaurants" pair.1 :: more.
Proof.
  intros Hdb Hacc. unfold add_fake_restaurant.
  erewrite W_bind_Return; last first.
  { apply within_run. unfold lift. simpl. by rewrite Hdb. }
  erewrite W_bind_Return; [|by apply within_run, collection_accepted].
  change (path_of [VStr "restaurants"]) with "restaurants".
  unfold mbind at 1, W_bind at 1, addDoc at 1. cbn [refuses write_calls inner].
  destruct (refuses s (CaddDoc "restaurants" pair.1)); cbn [fst snd write_calls].
  - by exists [].
  - match goal with
    | |- context [for_of pair.2 ?body ?s1] =>
        destruct (steady_for_of pair.2 body) with (s := s1) as (_ & _ & [more Hmore])
    end.
    { intros ratingData.
      apply steady_bind; [by apply steady_within|]. intros db0.
      apply steady_bind; [apply steady_within_harmless, harmless_collection|].
      intros ratings. apply steady_bind; [apply steady_addDoc|]. intros _.
      apply steady_ret. }
    exists more. rewrite Hmore. cbn [write_calls]. by rewrite <- app_assoc.
Qed.

(** One turn of the seeding loop: it returns, leaves the backend as it
    was and has attempted the restaurant. *)
Lemma seeding_turn
    (globals : gmap string binding) (db : value) (pair : value * list value)
    (s : writer) :
  globals !! "db" = Some (Initialized db) -> accepting (inner s) ->
  exists s1 more,
    try_catch_W (add_fake_restaurant globals pair) seeding_handler s = (Return tt, s1) /\
    env (inner s1) = env (inner s) /\
    write_calls s1 = write_calls s ++ CaddDoc "restaurants" pair.1 :: more.
Proof.
  intros Hdb Hacc.
  destruct (add_fake_restaurant_attempted globals db pair s Hdb Hacc) as [more Hmore].
  assert (steady (add_fake_restaurant globals pair)) as Hsteady.
  { unfold add_fake_restaurant.
    apply steady_bind; [by apply steady_within|]. intros db0.
    apply steady_bind; [apply steady_within_harmless, harmless_collection|].
    intros restaurants. apply steady_bind; [apply steady_addDoc|]. intros id.
    apply steady_add_fake_ratings. }
  destruct (Hsteady s) as (Henv & _). unfold try_catch_W.
  destruct (add_fake_restaurant globals pair s) as [[[]|e] s1]; cbn [fst snd] in *.
  - by exists s1, more.
  - destruct (steady_seeding_handler e s1) as (Henv' & _ & [more' Hmore']).
    destruct (seeding_handler_returns e s1) as (s2 & Hhandler & _).
    rewrite Hhandler in Henv', Hmore' |- *.
    cbn [fst snd] in *. exists s2, (more ++ more').
    split; [reflexivity|]. split; [congruence|].
    rewrite Hmore', Hmore. by rewrite <- app_assoc.
Qed.

Lemma steady_seeding_turns
    (globals : gmap string binding) (data : list (value * list value)) :
  steady (for_of data (fun pair =>
            try_catch_W (add_fake_restaurant globals pair) seeding_handler)).
Proof.
  apply steady_for_of. intros pair.
  apply steady_try_catch; [|apply steady_seeding_handler].
  unfold add_fake_restaurant.
  apply steady_bind; [by apply steady_within|]. intros db0.
  apply steady_bind; [apply steady_within_harmless, harmless_collection|].
  intros restaurants. apply steady_bind; [apply steady_addDoc|]. intros id.
  apply steady_add_fake_ratings.
Qed.

(** X17: every generated restaurant is attempted, whatever was refused
    before it: when the reference calls are accepted, the trace of direct
    writes after seeding holds an [addDoc] into "restaurants" for each
    restaurant of the data, also when [addDoc] itself is refused for some
    of them. *)
Theorem seeding_attempts_every_restaurant
    (globals : gmap string binding) (db : value) (data : list (value * list value))
    (s : writer) (pair : value * list value) :
  globals !! "db" = Some (Initialized db) -> accepting (inner s) ->
  pair ∈ data ->
  CaddDoc "restaurants" pair.1 ∈
    write_calls (addFakeRestaurantsAndReviews globals (Return data) s).2.
Proof.
  intros Hdb Hacc Hin. unfold addFakeRestaurantsAndReviews.
  destruct s as [w made refused]. erewrite W_bind_Return; [|reflexivity].
  cbn [inner] in Hacc. generalize dependent made. revert w Hacc.
  induction data as [|first data IH]; intros w Hacc made.
  - by apply elem_of_nil in Hin.
  - cbn [for_of].
    destruct (seeding_turn globals db first (Writer w made refused) Hdb Hacc)
      as (s1 & more & Hturn & Henv & Hcalls).
    erewrite W_bind_Return; [|exact Hturn].
    assert (accepting (inner s1)) as Hacc1.
    { intros c. rewrite Henv. apply Hacc. }
    destruct (steady_seeding_turns globals data s1) as (_ & Hrefused & [more' Hmore']).
    apply elem_of_cons in Hin as [->|Hin].
    + rewrite Hmore', Hcalls. set_solver.
    + destruct (steady_seeding_turns globals [first] (Writer w made refused))
        as (_ & Hkept & _).
      cbn [for_of] in Hkept. erewrite W_bind_Return in Hkept; [|exact Hturn].
      cbn in Hkept. destruct s1 as [w1 made1 refused1]. cbn in Hkept. subst refused1.
      by apply IH.
Qed.

(** X18: a restaurant the backend refuses to add costs two console lines
    and nothing else: its ratings are not attempted, no document changes,
    and the seeding returns. *)
Theorem refused_restaurant_is_logged_and_skipped
    (globals : gmap string binding) (db : value) (pair : value * list value)
    (s : writer) (code : string) :
  globals !! "db" = Some (Initialized db) -> accepting (inner s) ->
  refuses s (CaddDoc "restaurants" pair.1) = Some code ->
  let seeded := addFakeRestaurantsAndReviews globals (Return [pair]) s in
  seeded.1 = Return tt /\
  write_calls seeded.2 = write_calls s ++ [CaddDoc "restaurants" pair.1] /\
  console (inner seeded.2) =
    console (inner s) ++ [Log "There was an error adding the document" [];
                          LogError "Error adding document: " (FirestoreError code)] /\
  docs (inner seeded.2) = docs (inner s).
Proof.
  intros Hdb Hacc Hrefused seeded. subst seeded.
  unfold addFakeRestaurantsAndReviews.
  destruct s as [w made refused]. cbn [inner refuses write_calls] in *.
  erewrite W_bind_Return; [|reflexivity].
  cbn [for_of inner write_calls refuses].
  assert (add_fake_restaurant globals pair (Writer w made refused) =
          (Throw (FirestoreError code),
           Writer (add_call (Ccollection db [VStr "restaurants"]) w)
             (made ++ [CaddDoc "restaurants" pair.1]) refused)) as Hbody.
  { unfold add_fake_restaurant.
    erewrite W_bind_Return; last first.
    { apply within_run. unfold lift. simpl. by rewrite Hdb. }
    erewrite W_bind_Return; [|by apply within_run, collection_accepted].
    change (path_of [VStr "restaurants"]) with "restaurants".
    unfold mbind, W_bind, addDoc. cbn [refuses write_calls inner].
    by rewrite Hrefused. }
  erewrite W_bind_Return; [|unfold try_catch_W; rewrite Hbody; reflexivity].
  cbn. by rewrite <- app_assoc.
Qed.

End Seeding.

(** ** Seeding on a cooperative backend, and reading back what was written *)

Section RoundTrips.
Context `{Builtins}.

Lemma add_fake_ratings_cooperative
    (globals : gmap string binding) (db : value) (id : string)
    (ratingsData : list value) (w : world) (made : list write_call)
    (refused : write_call -> option string) :
  globals !! "db" = Some (Initialized db) -> accepting w ->
  (forall c, refused c = None) ->
  exists w' made',
    for_of ratingsData
      (fun ratingData =>
         db ← within (lift (ResolveBinding [globals] "db"));
         ratings ← within (collection db [VStr "restaurants"; VStr id; VStr "ratings"]);
         addDoc ratings ratingData;; mret tt)
      (Writer w made refused) = (Return tt, Writer w' made' refused) /\
    env w' = env w /\ console w' = console w /\
    length made' = length made + length ratingsData.
Proof.
  intros Hdb Hacc Hcoop. revert w made Hacc.
  induction ratingsData as [|ratingData ratingsData IH]; intros w made Hacc.
  - exists w, made. cbn [for_of length]. by rewrite Nat.add_0_r.
  - cbn [for_of].
    erewrite W_bind_Return; last first.
    { erewrite W_bind_Return; last first.
      { apply within_run. unfold lift. simpl. by rewrite Hdb. }
      erewrite W_bind_Return; [|by apply within_run, collection_accepted].
      erewrite W_bind_Return; [|unfold addDoc; by rewrite Hcoop].
      reflexivity. }
    cbn [inner write_calls refuses].
    match goal with
    | |- context [for_of ratingsData _ (Writer ?w1 ?made1 refused)] =>
        destruct (IH w1 made1) as (w' & made' & Hrun & Henv & Hconsole & Hlength)
    end.
    { intros c. apply Hacc. }
    exists w', made'. split; [exact Hrun|].
    split; [by rewrite Henv|]. split; [by rewrite Hconsole|].
    rewrite Hlength, length_app. simpl. lia.
Qed.

(** X19: on a backend that refuses nothing, seeding logs nothing and
    issues one [addDoc] per generated restaurant plus one per generated
    rating. *)
Theorem seeding_on_cooperative_backend
    (globals : gmap string binding) (db : value) (data : list (value * list value))
    (s : writer) :
  globals !! "db" = Some (Initialized db) -> accepting (inner s) ->
  (forall c, refuses s c = None) ->
  let seeded := addFakeRestaurantsAndReviews globals (Return data) s in
  console (inner seeded.2) = console (inner s) /\
  length (write_calls seeded.2) =
    length (write_calls s) + sum_list ((fun pair => S (length pair.2)) <$> data).
Proof.
  intros Hdb Hacc Hcoop seeded. subst seeded. unfold addFakeRestaurantsAndReviews.
  destruct s as [w made refused]. cbn [inner refuses write_calls] in *.
  erewrite W_bind_Return; [|reflexivity].
  cbn [inner write_calls refuses].
  revert w made Hacc. induction data as [|pair data IH]; intros w made Hacc.
  - cbn. by rewrite Nat.add_0_r.
  - cbn [for_of].
    assert (exists w1 made1,
              add_fake_restaurant globals pair (Writer w made refused) =
                (Return tt, Writer w1 made1 refused) /\
              env w1 = env w /\ console w1 = console w /\
              length made1 = length made + S (length pair.2))
      as (w1 & made1 & Hbody & Henv & Hconsole & Hlength).
    { unfold add_fake_restaurant.
      erewrite W_bind_Return; last first.
      { apply within_run. unfold lift. simpl. by rewrite Hdb. }
      erewrite W_bind_Return; [|by apply within_run, collection_accepted].
      erewrite W_bind_Return; [|unfold addDoc; by rewrite Hcoop].
      cbn [inner write_calls refuses].
      match goal with
      | |- context [for_of pair.2 _ (Writer ?w0 ?made0 refused)] =>
          destruct (add_fake_ratings_cooperative globals db
                      ("auto" +:+ pretty (next_id w)) pair.2 w0 made0 refused Hdb)
            as (w1 & made1 & Hrun & Henv & Hconsole & Hlength)
      end.
      { intros c. apply Hacc. }
      { exact Hcoop. }
      exists w1, made1. split; [exact Hrun|].
      split; [by rewrite Henv|]. split; [by rewrite Hconsole|].
      rewrite Hlength, length_app. simpl. lia. }
    erewrite W_bind_Return; [|unfold try_catch_W; rewrite Hbody; reflexivity].
    destruct (IH w1 made1) as (Hconsole' & Hlength').
    { intros c. rewrite Henv. apply Hacc. }
    split; [by rewrite Hconsole'|].
    rewrite Hlength', Hlength. rewrite fmap_cons. simpl. lia.
Qed.

(** X20: what a submission wrote is what a read gives back. After a
    review submission that returned for a restaurant stored with a
    Timestamp, reading that restaurant returns the new numRatings,
    sumRating and avgRating computed from the fields it had, and its
    timestamp as a date. *)
Theorem submitted_review_is_observed
    (db restaurantId review : value) (w : world) (old : gmap string value) (ms : Z) :
  accepting w ->
  (addReviewToRestaurant db restaurantId review w).1 = Return tt ->
  docs w !! restaurant_path restaurantId = Some old ->
  timestamp_of old = Some ms ->
  let done := (addReviewToRestaurant db restaurantId review w).2 in
  exists record,
    (getRestaurantById db restaurantId done).1 = Return (VObj record) /\
    record !! "numRatings" = Some (new_num_ratings (VObj old)) /\
    record !! "sumRating" = Some (new_sum_rating (VObj old) review) /\
    record !! "avgRating" =
      Some (js_div (new_sum_rating (VObj old) review) (new_num_ratings (VObj old))) /\
    record !! "timestamp" = Some (VDate ms).
Proof.
  intros Hacc Hreturn Hold Hms done.
  destruct (submission_commits _ _ _ _ Hreturn) as (old' & Hold' & Hdocs & _).
  rewrite Hold in Hold'. injection Hold' as <-. fold done in Hdocs.
  pose proof (addReviewToRestaurant_returns _ _ _ _ Hreturn) as (Hid & _ & Hrun).
  fold done in Hrun.
  assert (accepting done) as Hacc'.
  { destruct (submission_ends_later _ _ _ _ Hreturn) as (Hrejects & _).
    fold done in Hrejects. intros c. rewrite Hrejects. apply Hacc. }
  set (new := own_props (aggregate_update (VObj old) review) ∪ old) in Hdocs.
  assert (docs done !! path_of [VStr "restaurants"; restaurantId] = Some new) as Hnew.
  { change (path_of [VStr "restaurants"; restaurantId])
      with (restaurant_path restaurantId).
    rewrite Hdocs, lookup_insert_ne
      by (apply not_eq_sym, restaurant_path_not_review_path).
    apply lookup_insert_eq. }
  assert (timestamp_of new = Some ms) as Hms'.
  { unfold timestamp_of in *. subst new. cbn [own_props aggregate_update].
    rewrite lookup_union_r; [exact Hms|].
    rewrite !lookup_insert_ne by done. by apply lookup_singleton_ne. }
  assert (getRestaurantById db restaurantId done =
          (snapshot_record (Some new),
           add_call (CgetDoc (path_of [VStr "restaurants"; restaurantId]))
             (add_call (Cdoc db [VStr "restaurants"; restaurantId]) done))) as ->.
  { unfold getRestaurantById. rewrite Hid. cbn [negb].
    erewrite bind_Return; last first.
    { unfold doc. erewrite bind_Return; [|by apply sdk_accepted]. reflexivity. }
    erewrite bind_Return; last first.
    { unfold getDoc. erewrite bind_Return; [|by apply sdk_accepted]. reflexivity. }
    cbn [docs add_call]. by rewrite Hnew. }
  cbn [fst]. rewrite (snapshot_record_timestamp new ms Hms').
  eexists. split; [reflexivity|].
  subst new. cbn [own_props aggregate_update].
  rewrite !lookup_insert_ne by done.
  split; [by apply lookup_union_Some_l|].
  split; [by apply lookup_union_Some_l|].
  split; [by apply lookup_union_Some_l|].
  apply lookup_insert_eq.
Qed.

(** X21: the photo put by an image reference update is the photo a read
    returns: for a restaurant stored with a Timestamp and a truthy
    identifier, reading it after the update gives the new URL under
    [photo], and every other field but [timestamp] as stored. *)
Theorem updated_photo_is_observed
    (globals : gmap string binding) (db restaurantId publicImageUrl : value)
    (s : writer) (old : gmap string value) (ms : Z) :
  ToBoolean restaurantId = true ->
  globals !! "db" = Some (Initialized db) -> accepting (inner s) ->
  refuses s (CupdateDoc (restaurant_path restaurantId)
               (VObj {[ "photo" := publicImageUrl ]})) = None ->
  docs (inner s) !! restaurant_path restaurantId = Some old ->
  timestamp_of old = Some ms ->
  let updated := updateRestaurantImageReference globals restaurantId publicImageUrl s in
  exists record,
    (getRestaurantById db restaurantId (inner updated.2)).1 = Return (VObj record) /\
    record !! "photo" = Some publicImageUrl /\
    forall k, k <> "photo" -> k <> "timestamp" -> record !! k = old !! k.
Proof.
  intros Hid Hdb Hacc Hrefuses Hold Hms updated. subst updated.
  rewrite (updateRestaurantImageReference_accepted _ _ _ _ _ _ Hdb Hacc Hrefuses Hold).
  cbn [fst snd inner].
  set (new := <["photo" := publicImageUrl]> old).
  assert (timestamp_of new = Some ms) as Hms'.
  { unfold timestamp_of in *. subst new. by rewrite lookup_insert_ne. }
  match goal with
  | |- context [getRestaurantById db restaurantId ?w1] =>
      assert (getRestaurantById db restaurantId w1 =
              (snapshot_record (Some new),
               add_call (CgetDoc (path_of [VStr "restaurants"; restaurantId]))
                 (add_call (Cdoc db [VStr "restaurants"; restaurantId]) w1))) as ->
  end.
  { unfold getRestaurantById. rewrite Hid. cbn [negb].
    erewrite bind_Return; last first.
    { unfold doc. erewrite bind_Return; [|by apply sdk_accepted]. reflexivity. }
    erewrite bind_Return; last first.
    { unfold getDoc. erewrite bind_Return; [|by apply sdk_accepted]. reflexivity. }
    cbn [docs add_call set_docs].
    change (path_of [VStr "restaurants"; restaurantId])
      with (restaurant_path restaurantId).
    by rewrite lookup_insert_eq. }
  cbn [fst]. rewrite (snapshot_record_timestamp new ms Hms').
  eexists. split; [reflexivity|]. subst new.
  split; [by rewrite lookup_insert_ne, lookup_insert_eq|].
  intros k Hphoto Hts. by rewrite !lookup_insert_ne.
Qed.

End RoundTrips.

(** ** The further properties on sample data *)

Lemma getRestaurants_all_or_nothing_witness :
  exists q,
    applyQueryFilters (MkQuery "restaurants" []) (VObj ∅) = Return q /\
    calls (@getRestaurants sample_builtins sample_globals [VFirestore; VObj ∅]
             stocked_world).2 =
      calls stocked_world ++ [Ccollection VFirestore [VStr "restaurants"]; CgetDocs q] /\
    (Forall (fun d => is_Some (timestamp_of d.2)) (matching (env stocked_world) q) ->
     exists records,
       (@getRestaurants sample_builtins sample_globals [VFirestore; VObj ∅]
          stocked_world).1 = Return (VArr records) /\
       Forall2 (fun d r => exists ms, timestamp_of d.2 = Some ms /\ r = listed d ms)
         (matching (env stocked_world) q) records) /\
    (Exists (fun d => timestamp_of d.2 = None) (matching (env stocked_world) q) ->
     exists message,
       (@getRestaurants sample_builtins sample_globals [VFirestore; VObj ∅]
          stocked_world).1 = Throw (TypeError message)).
Proof.
  apply (@getRestaurants_all_or_nothing sample_builtins sample_globals VFirestore ∅
           stocked_world);
    [discriminate | intros c; reflexivity | reflexivity].
Defined.

Lemma null_filters_throw_witness :
  (exists message,
     applyQueryFilters (MkQuery "restaurants" []) VNull = Throw (TypeError message)) /\
  (exists message,
     applyQueryFilters (MkQuery "restaurants" []) VUndefined = Throw (TypeError message)) /\
  exists message,
    @getRestaurants sample_builtins sample_globals [VFirestore; VNull] stocked_world =
      (Throw (TypeError message),
       add_call (Ccollection VFirestore [VStr "restaurants"]) stocked_world).
Proof.
  apply (@null_filters_throw sample_builtins sample_globals VFirestore
           (MkQuery "restaurants" []) stocked_world);
    [discriminate | intros c; reflexivity].
Defined.

Lemma getReviewsByRestaurantId_most_recent_first_witness :
  let q := MkQuery (@path_of sample_builtins [VStr "restaurants"; VStr "a"; VStr "ratings"])
             [OrderBy "timestamp" Desc] in
  calls (@getReviewsByRestaurantId sample_builtins VFirestore (VStr "a") stocked_world).2 =
    calls stocked_world ++
    [Ccollection VFirestore [VStr "restaurants"; VStr "a"; VStr "ratings"]; CgetDocs q] /\
  (Forall (fun d => is_Some (timestamp_of d.2)) (matching (env stocked_world) q) ->
   exists records,
     (@getReviewsByRestaurantId sample_builtins VFirestore (VStr "a") stocked_world).1 =
       Return (VArr records) /\
     Forall2 (fun d r => exists ms, timestamp_of d.2 = Some ms /\ r = listed d ms)
       (matching (env stocked_world) q) records) /\
  (Exists (fun d => timestamp_of d.2 = None) (matching (env stocked_world) q) ->
   exists message,
     (@getReviewsByRestaurantId sample_builtins VFirestore (VStr "a") stocked_world).1 =
       Throw (TypeError message)).
Proof.
  apply (@getReviewsByRestaurantId_most_recent_first sample_builtins VFirestore (VStr "a")
           stocked_world);
    [reflexivity | intros c; reflexivity].
Defined.

Lemma getRestaurantById_existing_witness :
  let fields : gmap string value :=
    {[ "name" := VStr "Alpha"; "timestamp" := VTimestamp 10;
       "numRatings" := VNum 2; "sumRating" := VNum 9; "avgRating" := VNum 4.5 ]} in
  docs (@getRestaurantById sample_builtins VFirestore (VStr "a") stocked_world).2 =
    docs stocked_world /\
  (forall ms, timestamp_of fields = Some ms ->
     (@getRestaurantById sample_builtins VFirestore (VStr "a") stocked_world).1 =
       Return (VObj (<["timestamp" := VDate ms]> fields))) /\
  (timestamp_of fields = None ->
     exists message,
       (@getRestaurantById sample_builtins VFirestore (VStr "a") stocked_world).1 =
         Throw (TypeError message)).
Proof.
  intros fields.
  apply (@getRestaurantById_existing sample_builtins VFirestore (VStr "a") stocked_world
           fields);
    [reflexivity | intros c; reflexivity | reflexivity].
Defined.

Lemma restaurants_subscription_delivers_witness :
  exists q,
    applyQueryFilters (MkQuery "restaurants" []) (VObj ∅) = Return q /\
    let subscribed :=
      @getRestaurantsSnapshot sample_builtins sample_globals sample_callback (VObj ∅)
        stocked_world in
    subscribed.1 = Return unsubscribe /\
    listeners subscribed.2 = listeners stocked_world ++ [QueryListener q sample_callback] /\
    invoked subscribed.2 = invoked stocked_world /\
    (Forall (fun d => is_Some (timestamp_of d.2)) (matching (env stocked_world) q) ->
     exists records,
       deliver (QueryListener q sample_callback) subscribed.2 =
         (Return tt, add_invoked (sample_callback, VArr records) subscribed.2) /\
       Forall2 (fun d r => exists ms, timestamp_of d.2 = Some ms /\ r = listed d ms)
         (matching (env stocked_world) q) records) /\
    (Exists (fun d => timestamp_of d.2 = None) (matching (env stocked_world) q) ->
     exists message,
       deliver (QueryListener q sample_callback) subscribed.2 =
         (Throw (TypeError message), subscribed.2)).
Proof.
  apply (@restaurants_subscription_delivers sample_builtins sample_globals VFirestore
           sample_callback ∅ stocked_world);
    [reflexivity | reflexivity | intros c; reflexivity | reflexivity].
Defined.

Lemma restaurant_subscription_delivers_witness :
  let path := @path_of sample_builtins [VStr "restaurants"; VStr "a"] in
  let subscribed :=
    @getRestaurantSnapshotById sample_builtins sample_globals (VStr "a") sample_callback
      stocked_world in
  subscribed.1 = Return unsubscribe /\
  listeners subscribed.2 = listeners stocked_world ++ [DocListener path sample_callback] /\
  invoked subscribed.2 = invoked stocked_world /\
  (docs stocked_world !! path = None ->
   exists message,
     deliver (DocListener path sample_callback) subscribed.2 =
       (Throw (TypeError message), subscribed.2)) /\
  (forall fields ms,
     docs stocked_world !! path = Some fields -> timestamp_of fields = Some ms ->
     deliver (DocListener path sample_callback) subscribed.2 =
       (Return tt,
        add_invoked (sample_callback, VObj (<["timestamp" := VDate ms]> fields))
          subscribed.2)).
Proof.
  apply (@restaurant_subscription_delivers sample_builtins sample_globals VFirestore
           (VStr "a") sample_callback stocked_world);
    [reflexivity | reflexivity | reflexivity | intros c; reflexivity].
Defined.

Lemma image_reference_replaces_photo_only_witness :
  let old : gmap string value :=
    {[ "name" := VStr "Alpha"; "timestamp" := VTimestamp 10;
       "numRatings" := VNum 2; "sumRating" := VNum 9; "avgRating" := VNum 4.5 ]} in
  let s := cooperative_writer stocked_world in
  let updated :=
    @updateRestaurantImageReference sample_builtins sample_globals (VStr "a")
      sample_photo s in
  updated.1 = Return tt /\
  (exists new,
     docs (inner updated.2) !! @restaurant_path sample_builtins (VStr "a") = Some new /\
     new !! "photo" = Some sample_photo /\
     forall k, k <> "photo" -> new !! k = old !! k) /\
  (forall path, path <> @restaurant_path sample_builtins (VStr "a") ->
     docs (inner updated.2) !! path = docs (inner s) !! path) /\
  console (inner updated.2) = console (inner s).
Proof.
  intros old s.
  apply (@image_reference_replaces_photo_only sample_builtins sample_globals VFirestore
           (VStr "a") sample_photo s old);
    [reflexivity | intros c; reflexivity | reflexivity | reflexivity].
Defined.

Lemma image_reference_failure_changes_nothing_witness :
  let s := cooperative_writer stocked_world in
  docs (inner (@updateRestaurantImageReference sample_builtins sample_globals (VStr "zz")
                 sample_photo s).2) = docs (inner s) /\
  console (inner (@updateRestaurantImageReference sample_builtins sample_globals (VStr "zz")
                    sample_photo s).2) = console (inner s).
Proof.
  intros s.
  apply (@image_reference_failure_changes_nothing sample_builtins sample_globals
           (VStr "zz") sample_photo s (FirestoreError "not-found")).
  reflexivity.
Defined.

Lemma seeding_attempts_every_restaurant_witness :
  CaddDoc "restaurants" (VObj {[ "name" := VStr "Delta" ]}) ∈
    write_calls (@addFakeRestaurantsAndReviews sample_builtins sample_globals
                   (Return sample_fake_data) (refusing_writer sample_world)).2.
Proof.
  apply (@seeding_attempts_every_restaurant sample_builtins sample_globals VFirestore
           sample_fake_data (refusing_writer sample_world)
           (VObj {[ "name" := VStr "Delta" ]}, []));
    [reflexivity | intros c; reflexivity | repeat constructor].
Defined.

Lemma refused_restaurant_is_logged_and_skipped_witness :
  let pair : value * list value :=
    (VObj {[ "name" := VStr "Gamma" ]}, [VObj {[ "rating" := VNum 5 ]}]) in
  let s := refusing_writer sample_world in
  let seeded :=
    @addFakeRestaurantsAndReviews sample_builtins sample_globals (Return [pair]) s in
  seeded.1 = Return tt /\
  write_calls seeded.2 = write_calls s ++ [CaddDoc "restaurants" pair.1] /\
  console (inner seeded.2) =
    console (inner s) ++
    [Log "There was an error adding the document" [];
     LogError "Error adding document: " (FirestoreError "permission-denied")] /\
  docs (inner seeded.2) = docs (inner s).
Proof.
  intros pair s.
  apply (@refused_restaurant_is_logged_and_skipped sample_builtins sample_globals
           VFirestore pair s "permission-denied");
    [reflexivity | intros c; reflexivity | reflexivity].
Defined.

Lemma seeding_on_cooperative_backend_witness :
  let s := cooperative_writer sample_world in
  let seeded :=
    @addFakeRestaurantsAndReviews sample_builtins sample_globals
      (Return sample_fake_data) s in
  console (inner seeded.2) = console (inner s) /\
  length (write_calls seeded.2) =
    length (write_calls s) +
    sum_list ((fun pair : value * list value => S (length pair.2)) <$> sample_fake_data).
Proof.
  intros s.
  apply (@seeding_on_cooperative_backend sample_builtins sample_globals VFirestore
           sample_fake_data s);
    [reflexivity | intros c; reflexivity | intros c; reflexivity].
Defined.

Lemma submitted_review_is_observed_witness :
  let old : gmap string value :=
    {[ "name" := VStr "Alpha"; "timestamp" := VTimestamp 10;
       "numRatings" := VNum 2; "sumRating" := VNum 9; "avgRating" := VNum 4.5 ]} in
  let done :=
    (@addReviewToRestaurant sample_builtins VFirestore (VStr "a") sample_review
       stocked_world).2 in
  exists record,
    (@getRestaurantById sample_builtins VFirestore (VStr "a") done).1 =
      Return (VObj record) /\
    record !! "numRatings" = Some (@new_num_ratings sample_builtins (VObj old)) /\
    record !! "sumRating" = Some (@new_sum_rating sample_builtins (VObj old) sample_review) /\
    record !! "avgRating" =
      Some (@js_div sample_builtins
              (@new_sum_rating sample_builtins (VObj old) sample_review)
              (@new_num_ratings sample_builtins (VObj old))) /\
    record !! "timestamp" = Some (VDate 10).
Proof.
  intros old.
  apply (@submitted_review_is_observed sample_builtins VFirestore (VStr "a") sample_review
           stocked_world old 10);
    [intros c; reflexivity | reflexivity | reflexivity | reflexivity].
Defined.

Lemma updated_photo_is_observed_witness :
  let old : gmap string value :=
    {[ "name" := VStr "Alpha"; "timestamp" := VTimestamp 10;
       "numRatings" := VNum 2; "sumRating" := VNum 9; "avgRating" := VNum 4.5 ]} in
  let updated :=
    @updateRestaurantImageReference sample_builtins sample_globals (VStr "a")
      sample_photo (cooperative_writer stocked_world) in
  exists record,
    (@getRestaurantById sample_builtins VFirestore (VStr "a") (inner updated.2)).1 =
      Return (VObj record) /\
    record !! "photo" = Some sample_photo /\
    forall k, k <> "photo" -> k <> "timestamp" -> record !! k = old !! k.
Proof.
  intros old.
  apply (@updated_photo_is_observed sample_builtins sample_globals VFirestore (VStr "a")
           sample_photo (cooperative_writer stocked_world) old 10);
    [reflexivity | reflexivity | intros c; reflexivity | reflexivity | reflexivity
    | reflexivity].
Defined.
